(** * LSP connection management: a shallow embedding

    The development follows four source units of the editor:
    - [services/lsp/lsp-connection-manager.ts]: the [LspConnectionManager]
      class (module [ConnectionManager]);
    - [stores/lsp-store.ts]: the diagnostics and pending-download parts of
      the LSP store (module [LspStore]);
    - [hooks/use-lsp.ts]: the [useLsp] hook, its connection effect, its
      diagnostics subscription and its document actions (module [UseLsp]);
    - [providers/oauth/qwen-code-oauth-store.ts], with the endpoint
      computation of [qwen-code-oauth-service.ts]: the Qwen Code OAuth
      store (module [QwenCodeOAuth]).

    JavaScript [Map]s are finite maps ([gmap]) keyed by strings, [Set]s are
    [gset]s.  Only [getFileReferences] and [getAllConnections] observe the
    insertion order of a [Map]; neither is modelled here.  Asynchronous
    functions are cut at their [await]s into continuations, and what the
    awaited collaborators answer is an argument of the continuation.

    The definitions come first, module by module; the facts follow in
    [ConnectionManagerFacts], [LspStoreFacts], [UseLspFacts] and
    [QwenCodeOAuthFacts].  *)

From stdpp Require Import gmap strings list fin_maps pretty.
From Stdlib Require Import ZArith Lia.

Local Open Scope string_scope.

(** JavaScript truthiness of a [string | null] value: [null] and the empty
    string are falsy. *)
Definition truthy (s : option string) : bool :=
  match s with
  | Some s => negb (String.eqb s "")
  | None => false
  end.

(* ====================================================================== *)
(** * The connection manager *)
(* ====================================================================== *)

Module ConnectionManager.

(** [interface LspConnection] *)
Record LspConnection := mkLspConnection {
  conn_serverId : string;
  conn_language : string;
  conn_rootPath : string;
}.

(** [interface ServerFileReferences] *)
Record ServerFileReferences := mkServerFileReferences {
  refs_serverId : string;
  refs_language : string;
  refs_rootPath : string;
  filePaths : gset string;
}.

#[global] Instance LspConnection_eq_dec : EqDecision LspConnection.
Proof. solve_decision. Defined.

(** The two private fields of [class LspConnectionManager]. *)
Record LspConnectionManager := mkManager {
  connections : gmap string LspConnection;
  serverReferences : gmap string ServerFileReferences;
}.

(** [new LspConnectionManager()] *)
Definition empty : LspConnectionManager := mkManager ∅ ∅.

(** The template literal [`${rootPath}:${language}`]. *)
Definition refKey (rootPath language : string) : string :=
  rootPath ++ ":" ++ language.

Definition hasConnection (filePath : string) (m : LspConnectionManager) : bool :=
  bool_decide (is_Some (connections m !! filePath)).

Definition getConnection (filePath : string) (m : LspConnectionManager)
  : option LspConnection :=
  connections m !! filePath.

Definition getConnectionByRoot (rootPath language : string)
    (m : LspConnectionManager) : option LspConnection :=
  match serverReferences m !! refKey rootPath language with
  | None => None
  | Some refs =>
      Some (mkLspConnection (refs_serverId refs) (refs_language refs)
                            (refs_rootPath refs))
  end.

(** [refs.filePaths.add(filePath)]: the record stored in the map is mutated
    in place; the map then holds the record with the larger set. *)
Definition addFilePath (filePath : string) (refs : ServerFileReferences)
  : ServerFileReferences :=
  mkServerFileReferences (refs_serverId refs) (refs_language refs)
    (refs_rootPath refs) (filePaths refs ∪ {[filePath]}).

(** [refs.filePaths.delete(filePath)] *)
Definition deleteFilePath (filePath : string) (refs : ServerFileReferences)
  : ServerFileReferences :=
  mkServerFileReferences (refs_serverId refs) (refs_language refs)
    (refs_rootPath refs) (filePaths refs ∖ {[filePath]}).

Definition register (filePath serverId language rootPath : string)
    (m : LspConnectionManager) : LspConnectionManager :=
  let connections' :=
    <[filePath := mkLspConnection serverId language rootPath]> (connections m) in
  let key := refKey rootPath language in
  let refs :=
    match serverReferences m !! key with
    | Some refs => refs
    | None => mkServerFileReferences serverId language rootPath ∅
    end in
  mkManager connections' (<[key := addFilePath filePath refs]> (serverReferences m)).

(** [unregister] returns [wasLastReference] together with the new state. *)
Definition unregister (filePath : string) (m : LspConnectionManager)
  : bool * LspConnectionManager :=
  match connections m !! filePath with
  | None => (false, m)
  | Some conn =>
      let connections' := delete filePath (connections m) in
      let key := refKey (conn_rootPath conn) (conn_language conn) in
      match serverReferences m !! key with
      | Some refs =>
          let refs' := deleteFilePath filePath refs in
          let wasLastReference := bool_decide (size (filePaths refs') = 0) in
          if wasLastReference
          then (true, mkManager connections' (delete key (serverReferences m)))
          else (false, mkManager connections' (<[key := refs']> (serverReferences m)))
      | None => (false, mkManager connections' (serverReferences m))
      end
  end.

Definition unregisterServer (serverId : string) (m : LspConnectionManager)
  : LspConnectionManager :=
  mkManager
    (filter (λ kv, conn_serverId kv.2 ≠ serverId) (connections m))
    (filter (λ kv, refs_serverId kv.2 ≠ serverId) (serverReferences m)).

Definition getFileReferenceCount (serverId : string) (m : LspConnectionManager)
  : nat :=
  map_fold
    (λ _ refs count,
       if decide (refs_serverId refs = serverId)
       then count + size (filePaths refs) else count)
    0 (serverReferences m).

Definition clear (_ : LspConnectionManager) : LspConnectionManager := empty.


(** Every reference entry of the index holds at least one file path; the
    empty manager satisfies it and every operation keeps it. *)
Definition setsNonEmpty (m : LspConnectionManager) : Prop :=
  ∀ key refs, serverReferences m !! key = Some refs → filePaths refs ≠ ∅.

(** How many reference entries of [serverId] hold [filePath]: the number of
    times [getFileReferenceCount serverId] counts that file. *)
Definition fileOccurrences (serverId filePath : string)
    (m : LspConnectionManager) : nat :=
  length
    (filter (λ kv, refs_serverId kv.2 = serverId ∧ filePath ∈ filePaths kv.2)
       (map_to_list (serverReferences m))).

(** No reference entry holds [filePath]. *)
Definition unreferenced (filePath : string) (m : LspConnectionManager) : Prop :=
  ∀ key refs, serverReferences m !! key = Some refs → filePath ∉ filePaths refs.

(** The public mutators of the class, as data, and their effect. *)
Inductive Operation :=
| Register (filePath serverId language rootPath : string)
| Unregister (filePath : string)
| UnregisterServer (serverId : string)
| Clear.

Definition perform (m : LspConnectionManager) (op : Operation)
  : LspConnectionManager :=
  match op with
  | Register filePath serverId language rootPath =>
      register filePath serverId language rootPath m
  | Unregister filePath => (unregister filePath m).2
  | UnregisterServer serverId => unregisterServer serverId m
  | Clear => clear m
  end.

Definition performAll (ops : list Operation) (m : LspConnectionManager)
  : LspConnectionManager :=
  fold_left perform ops m.

(** Every reference entry sits under the key made of its own root path and
    language. *)
Definition keysConsistent (m : LspConnectionManager) : Prop :=
  ∀ key refs, serverReferences m !! key = Some refs →
              key = refKey (refs_rootPath refs) (refs_language refs).

(** The server a file registered under (rootPath, language) is counted
    for: the server of the key's entry when there is one, [serverId]
    otherwise. *)
Definition owner (rootPath language serverId : string)
    (m : LspConnectionManager) : string :=
  match getConnectionByRoot rootPath language m with
  | Some existing => conn_serverId existing
  | None => serverId
  end.

(** What one reference entry adds to [getFileReferenceCount serverId]. *)
Definition weight (serverId : string) (refs : ServerFileReferences) : nat :=
  if decide (refs_serverId refs = serverId) then size (filePaths refs) else 0.

End ConnectionManager.

(* ====================================================================== *)
(** * The LSP store (diagnostics and pending downloads) *)
(* ====================================================================== *)

Module LspStore.

(** The two helpers imported from [services/lsp/lsp-protocol], whose source
    is not part of the development; they are an interface. *)
Class LspProtocol := {
  severityToString : Z → string;
  uriToFilePath : string → string;
}.

(** Protocol-side [Diagnostic] (the fields the store and the hook read). *)
Record Position := mkPosition { line : Z; character : Z }.
Record Range := mkRange { range_start : Position; range_end : Position }.

Inductive DiagnosticCode :=
| CodeNumber (n : Z)
| CodeString (s : string).

Record Diagnostic := mkDiagnostic {
  severity : option Z;
  message : string;
  range : Range;
  code : option DiagnosticCode;
}.

(** [d.code?.toString()] *)
Definition codeToString (c : option DiagnosticCode) : option string :=
  match c with
  | None => None
  | Some (CodeNumber n) => Some (pretty n)
  | Some (CodeString s) => Some s
  end.

(** [interface LspDiagnostic]; [source] is the constant ['lsp']. *)
Record LspPoint := mkLspPoint { pt_line : Z; pt_column : Z }.

Record LspDiagnostic := mkLspDiagnostic {
  id : string;
  lsp_severity : string;
  lsp_message : string;
  lsp_start : LspPoint;
  lsp_end : LspPoint;
  lsp_code : option string;
}.

Record PendingDownload := mkPendingDownload {
  pd_language : string;
  pd_languageDisplayName : string;
  pd_serverName : string;
  pd_downloadUrl : option string;
}.

(** [type DiagnosticCounts]; JavaScript numbers, here exact integers. *)
Record DiagnosticCounts := mkCounts {
  errors : Z;
  warnings : Z;
  info : Z;
  hints : Z;
}.

Definition zeroCounts : DiagnosticCounts := mkCounts 0 0 0 0.

(** One iteration of the loop of [countDiagnostics]: the [switch] on
    [d.severity] with no [default] branch. *)
Definition countOne (counts : DiagnosticCounts) (d : LspDiagnostic)
  : DiagnosticCounts :=
  let s := lsp_severity d in
  if String.eqb s "error" then
    mkCounts (errors counts + 1) (warnings counts) (info counts) (hints counts)
  else if String.eqb s "warning" then
    mkCounts (errors counts) (warnings counts + 1) (info counts) (hints counts)
  else if String.eqb s "info" then
    mkCounts (errors counts) (warnings counts) (info counts + 1) (hints counts)
  else if String.eqb s "hint" then
    mkCounts (errors counts) (warnings counts) (info counts) (hints counts + 1)
  else counts.

Definition countDiagnostics (diagnostics : list LspDiagnostic) : DiagnosticCounts :=
  fold_left countOne diagnostics zeroCounts.

Definition updateCounts (current oldFileCounts newFileCounts : DiagnosticCounts)
  : DiagnosticCounts :=
  mkCounts
    (errors current - errors oldFileCounts + errors newFileCounts)
    (warnings current - warnings oldFileCounts + warnings newFileCounts)
    (info current - info oldFileCounts + info newFileCounts)
    (hints current - hints oldFileCounts + hints newFileCounts).

(** The fields of [LspState] that the diagnostics and download actions and
    the hook read or write. *)
Record LspState := mkLspState {
  enabled : bool;
  showDiagnostics : bool;
  showErrors : bool;
  showWarnings : bool;
  showInfo : bool;
  showHints : bool;
  diagnosticsByFile : gmap string (list LspDiagnostic);
  diagnosticsCounts : DiagnosticCounts;
  pendingDownloads : list PendingDownload;
}.

(** The initial state passed to [create]. *)
Definition initialState : LspState :=
  mkLspState true true true true true false ∅ zeroCounts [].

Definition withDiagnostics (byFile : gmap string (list LspDiagnostic))
    (counts : DiagnosticCounts) (st : LspState) : LspState :=
  mkLspState (enabled st) (showDiagnostics st) (showErrors st) (showWarnings st)
    (showInfo st) (showHints st) byFile counts (pendingDownloads st).

Definition withPendingDownloads (pds : list PendingDownload) (st : LspState)
  : LspState :=
  mkLspState (enabled st) (showDiagnostics st) (showErrors st) (showWarnings st)
    (showInfo st) (showHints st) (diagnosticsByFile st) (diagnosticsCounts st) pds.

(** The four severity switches, [set({ showErrors: show })] and the like
    (the write-through to the settings store has no effect on this state). *)
Definition setShowErrors (show : bool) (st : LspState) : LspState :=
  mkLspState (enabled st) (showDiagnostics st) show (showWarnings st)
    (showInfo st) (showHints st) (diagnosticsByFile st) (diagnosticsCounts st)
    (pendingDownloads st).
Definition setShowWarnings (show : bool) (st : LspState) : LspState :=
  mkLspState (enabled st) (showDiagnostics st) (showErrors st) show
    (showInfo st) (showHints st) (diagnosticsByFile st) (diagnosticsCounts st)
    (pendingDownloads st).
Definition setShowInfo (show : bool) (st : LspState) : LspState :=
  mkLspState (enabled st) (showDiagnostics st) (showErrors st) (showWarnings st)
    show (showHints st) (diagnosticsByFile st) (diagnosticsCounts st)
    (pendingDownloads st).
Definition setShowHints (show : bool) (st : LspState) : LspState :=
  mkLspState (enabled st) (showDiagnostics st) (showErrors st) (showWarnings st)
    (showInfo st) show (diagnosticsByFile st) (diagnosticsCounts st)
    (pendingDownloads st).

(** [d.severity || 1]: [undefined] and [0] are falsy. *)
Definition severityOrError (s : option Z) : Z :=
  match s with
  | Some z => if (z =? 0)%Z then 1 else z
  | None => 1
  end.

(** The [diagnostics.map((d, index) => ...)] of [setDiagnostics]. *)
Definition toLspDiagnostic `{LspProtocol} (filePath : string) (index : nat)
    (d : Diagnostic) : LspDiagnostic :=
  mkLspDiagnostic
    ("lsp-" ++ filePath ++ "-" ++ pretty index)
    (severityToString (severityOrError (severity d)))
    (message d)
    (mkLspPoint (line (range_start (range d))) (character (range_start (range d))))
    (mkLspPoint (line (range_end (range d))) (character (range_end (range d))))
    (codeToString (code d)).

(** The severity filter of [setDiagnostics], with its [default: return true]. *)
Definition severityVisible (st : LspState) (d : LspDiagnostic) : bool :=
  let s := lsp_severity d in
  if String.eqb s "error" then showErrors st
  else if String.eqb s "warning" then showWarnings st
  else if String.eqb s "info" then showInfo st
  else if String.eqb s "hint" then showHints st
  else true.

Definition setDiagnostics `{LspProtocol} (uri : string)
    (diagnostics : list Diagnostic) (state : LspState) : LspState :=
  let filePath := uriToFilePath uri in
  let lspDiagnostics := imap (toLspDiagnostic filePath) diagnostics in
  let filteredDiagnostics := List.filter (severityVisible state) lspDiagnostics in
  let oldDiagnostics := default [] (diagnosticsByFile state !! filePath) in
  let oldFileCounts := countDiagnostics oldDiagnostics in
  let newFileCounts := countDiagnostics filteredDiagnostics in
  let diagnosticsByFile' := <[filePath := filteredDiagnostics]> (diagnosticsByFile state) in
  let newCounts := updateCounts (diagnosticsCounts state) oldFileCounts newFileCounts in
  withDiagnostics diagnosticsByFile' newCounts state.

Definition clearDiagnostics `{LspProtocol} (uri : string) (state : LspState)
  : LspState :=
  let filePath := uriToFilePath uri in
  match diagnosticsByFile state !! filePath with
  | None => state
  | Some oldDiagnostics =>
      let oldFileCounts := countDiagnostics oldDiagnostics in
      let emptyFileCounts := mkCounts 0 0 0 0 in
      let diagnosticsByFile' := delete filePath (diagnosticsByFile state) in
      let newCounts :=
        updateCounts (diagnosticsCounts state) oldFileCounts emptyFileCounts in
      withDiagnostics diagnosticsByFile' newCounts state
  end.

Definition clearAllDiagnostics (state : LspState) : LspState :=
  withDiagnostics ∅ (mkCounts 0 0 0 0) state.

Definition getDiagnostics (filePath : string) (state : LspState)
  : list LspDiagnostic :=
  default [] (diagnosticsByFile state !! filePath).

(** [addPendingDownload]: no duplicate per language. *)
Definition addPendingDownload (download : PendingDownload) (state : LspState)
  : LspState :=
  if existsb (λ d, String.eqb (pd_language d) (pd_language download))
       (pendingDownloads state)
  then state
  else withPendingDownloads (pendingDownloads state ++ [download]) state.

(** The store actions that touch the diagnostics or the filter they pass
    through. *)
Inductive Action :=
| SetDiagnostics (uri : string) (diagnostics : list Diagnostic)
| ClearDiagnostics (uri : string)
| ClearAllDiagnostics
| SetShowErrors (show : bool)
| SetShowWarnings (show : bool)
| SetShowInfo (show : bool)
| SetShowHints (show : bool).

Definition dispatch `{LspProtocol} (state : LspState) (a : Action) : LspState :=
  match a with
  | SetDiagnostics uri diagnostics => setDiagnostics uri diagnostics state
  | ClearDiagnostics uri => clearDiagnostics uri state
  | ClearAllDiagnostics => clearAllDiagnostics state
  | SetShowErrors show => setShowErrors show state
  | SetShowWarnings show => setShowWarnings show state
  | SetShowInfo show => setShowInfo show state
  | SetShowHints show => setShowHints show state
  end.

Definition runActions `{LspProtocol} (actions : list Action) (state : LspState)
  : LspState :=
  fold_left dispatch actions state.

(** Does an action belong to the three diagnostics operations? *)
Definition isDiagnosticsAction (a : Action) : bool :=
  match a with
  | SetDiagnostics _ _ | ClearDiagnostics _ | ClearAllDiagnostics => true
  | _ => false
  end.

(** Recounting from scratch: every diagnostic of every file, by severity. *)
Definition allDiagnostics (byFile : gmap string (list LspDiagnostic))
  : list LspDiagnostic :=
  concat (map snd (map_to_list byFile)).

Definition recount (byFile : gmap string (list LspDiagnostic)) : DiagnosticCounts :=
  countDiagnostics (allDiagnostics byFile).

Definition addCounts (a b : DiagnosticCounts) : DiagnosticCounts :=
  mkCounts (errors a + errors b) (warnings a + warnings b)
    (info a + info b) (hints a + hints b).

(** The invariant of the store: the running totals are the recount. *)
Definition consistent (st : LspState) : Prop :=
  diagnosticsCounts st = recount (diagnosticsByFile st).

(** [removePendingDownload] and [clearPendingDownloads] *)
Definition removePendingDownload (language : string) (state : LspState)
  : LspState :=
  withPendingDownloads
    (List.filter (λ d, negb (String.eqb (pd_language d) language))
       (pendingDownloads state)) state.

Definition clearPendingDownloads (state : LspState) : LspState :=
  withPendingDownloads [] state.

Inductive DownloadAction :=
| AddPending (download : PendingDownload)
| RemovePending (language : string)
| ClearPending.

Definition dispatchDownload (state : LspState) (a : DownloadAction) : LspState :=
  match a with
  | AddPending download => addPendingDownload download state
  | RemovePending language => removePendingDownload language state
  | ClearPending => clearPendingDownloads state
  end.

(** The number of diagnostics of a list with a given severity. *)
Definition withSeverity (s : string) (diagnostics : list LspDiagnostic) : Z :=
  Z.of_nat (length (List.filter (λ d, String.eqb (lsp_severity d) s) diagnostics)).

End LspStore.

(* ====================================================================== *)
(** * The [useLsp] hook *)
(* ====================================================================== *)

Module UseLsp.

Import ConnectionManager LspStore.

(** The helpers imported from [services/lsp/lsp-servers], whose source is
    not part of the development; they are an interface.  [ServerConfig]
    keeps the two fields of a server configuration that the hook reads. *)
Record ServerConfig := mkServerConfig {
  config_name : string;
  config_command : string;
}.

Class LspServers := {
  getLanguageIdForPath : string → option string;
  getLspLanguageIdForPath : string → option string;
  hasLspSupport : string → bool;
  getServerConfig : string → option ServerConfig;
  getLanguageDisplayName : string → string;
}.

(** The answer of [lspService.getServerStatus]. *)
Record ServerStatus := mkServerStatus {
  available : bool;
  canDownload : bool;
  downloadUrl : option string;
}.

(** [monaco.MarkerSeverity] *)
Inductive MarkerSeverity := MarkerHint | MarkerInfo | MarkerWarning | MarkerError.

Record Marker := mkMarker {
  marker_severity : MarkerSeverity;
  marker_message : string;
  startLineNumber : Z;
  startColumn : Z;
  endLineNumber : Z;
  endColumn : Z;
  marker_source : string;
  marker_code : option string;
}.

(** Every call the hook issues to a collaborator, in the order issued: the
    [lspService] singleton, the connection manager (whose state is also
    kept, in [manager]) and the editor. *)
Inductive Call :=
| GetServerStatus (language : string)
| IncrementRefCount (serverId : string) (result : bool)
| DecrementRefCount (serverId : string)
| StartServer (language workspaceRoot : string)
| OpenDocument (serverId filePath languageId content : string)
| ChangeDocument (serverId filePath content : string)
| CloseDocument (serverId filePath : string)
| ManagerRegister (filePath serverId language rootPath : string)
| ManagerUnregister (filePath : string)
| ManagerUnregisterServer (serverId : string)
| AddPendingDownload (download : PendingDownload)
| SetModelMarkers (owner : string) (markers : list Marker).

(** The [useRef] cells of one hook instance. *)
Record Refs := mkRefs {
  serverIdRef : option string;
  filePathRef : option string;
  languageRef : option string;
  workspaceRootRef : option string;
  isDocumentOpenRef : bool;
  hasIncrementedRefRef : bool;
}.

(** The [useState] cells that the connection effect writes. *)
Record HookState := mkHookState {
  isConnected : bool;
  isLoading : bool;
  error : option string;
  serverId : option string;
}.

(** Where an [initializeConnection] call is suspended. *)
Inductive Pc := AwaitingStatus | AwaitingStart | Settled.

(** One run of the connection effect that got as far as calling
    [initializeConnection]: its closure ([language], [workspaceRoot],
    [filePath], the mutable [isMounted]) and its suspension point. *)
Record Activation := mkActivation {
  act_language : string;
  act_workspaceRoot : string;
  act_filePath : string;
  isMounted : bool;
  pc : Pc;
}.

Record World := mkWorld {
  refs : Refs;
  hook : HookState;
  manager : LspConnectionManager;
  store : LspState;
  calls : list Call;
  activations : list Activation;
}.

Definition initialRefs : Refs := mkRefs None None None None false false.
Definition initialHook : HookState := mkHookState false false None None.
Definition initialWorld : World :=
  mkWorld initialRefs initialHook ConnectionManager.empty initialState [] [].

(** ** Assignments *)

Definition withRefs (r : Refs) (w : World) : World :=
  mkWorld r (hook w) (manager w) (store w) (calls w) (activations w).
Definition withHook (h : HookState) (w : World) : World :=
  mkWorld (refs w) h (manager w) (store w) (calls w) (activations w).
Definition withManager (m : LspConnectionManager) (w : World) : World :=
  mkWorld (refs w) (hook w) m (store w) (calls w) (activations w).
Definition withStore (s : LspState) (w : World) : World :=
  mkWorld (refs w) (hook w) (manager w) s (calls w) (activations w).
Definition withActivations (l : list Activation) (w : World) : World :=
  mkWorld (refs w) (hook w) (manager w) (store w) (calls w) l.
Definition issue (c : Call) (w : World) : World :=
  mkWorld (refs w) (hook w) (manager w) (store w) (calls w ++ [c]) (activations w).

Definition setServerIdRef (v : option string) (w : World) : World :=
  let r := refs w in
  withRefs (mkRefs v (filePathRef r) (languageRef r) (workspaceRootRef r)
              (isDocumentOpenRef r) (hasIncrementedRefRef r)) w.
Definition setFilePathRef (v : option string) (w : World) : World :=
  let r := refs w in
  withRefs (mkRefs (serverIdRef r) v (languageRef r) (workspaceRootRef r)
              (isDocumentOpenRef r) (hasIncrementedRefRef r)) w.
Definition setLanguageRef (v : option string) (w : World) : World :=
  let r := refs w in
  withRefs (mkRefs (serverIdRef r) (filePathRef r) v (workspaceRootRef r)
              (isDocumentOpenRef r) (hasIncrementedRefRef r)) w.
Definition setWorkspaceRootRef (v : option string) (w : World) : World :=
  let r := refs w in
  withRefs (mkRefs (serverIdRef r) (filePathRef r) (languageRef r) v
              (isDocumentOpenRef r) (hasIncrementedRefRef r)) w.
Definition setIsDocumentOpenRef (v : bool) (w : World) : World :=
  let r := refs w in
  withRefs (mkRefs (serverIdRef r) (filePathRef r) (languageRef r)
              (workspaceRootRef r) v (hasIncrementedRefRef r)) w.
Definition setHasIncrementedRefRef (v : bool) (w : World) : World :=
  let r := refs w in
  withRefs (mkRefs (serverIdRef r) (filePathRef r) (languageRef r)
              (workspaceRootRef r) (isDocumentOpenRef r) v) w.

Definition setIsConnected (v : bool) (w : World) : World :=
  let h := hook w in
  withHook (mkHookState v (isLoading h) (error h) (serverId h)) w.
Definition setIsLoading (v : bool) (w : World) : World :=
  let h := hook w in
  withHook (mkHookState (isConnected h) v (error h) (serverId h)) w.
Definition setError (v : option string) (w : World) : World :=
  let h := hook w in
  withHook (mkHookState (isConnected h) (isLoading h) v (serverId h)) w.
Definition setServerId (v : option string) (w : World) : World :=
  let h := hook w in
  withHook (mkHookState (isConnected h) (isLoading h) (error h) v) w.

(** The value of a [string | null] once it is known to be truthy. *)
Definition str (s : option string) : string := default "" s.

(** ** [performCleanup] *)

Definition performCleanup (w : World) : World :=
  let currentServerId := serverIdRef (refs w) in
  let currentFilePath := filePathRef (refs w) in
  let hasIncremented := hasIncrementedRefRef (refs w) in
  (* Close document if open (fire and forget) *)
  let w :=
    if truthy currentServerId && isDocumentOpenRef (refs w) && truthy currentFilePath
    then setIsDocumentOpenRef false
           (issue (CloseDocument (str currentServerId) (str currentFilePath)) w)
    else w in
  (* Unregister connection *)
  let w :=
    if truthy currentFilePath
    then withManager (unregister (str currentFilePath) (manager w)).2
           (issue (ManagerUnregister (str currentFilePath)) w)
    else w in
  (* Decrement ref count if we incremented it *)
  let w :=
    if hasIncremented && truthy currentServerId
    then setHasIncrementedRefRef false
           (issue (DecrementRefCount (str currentServerId)) w)
    else w in
  (* Reset state refs *)
  setFilePathRef None (setServerIdRef None w).

(** ** The connection effect *)

(** The body of the effect, up to the first [await] of
    [initializeConnection].  The dependencies are the arguments. *)
Definition runEffect `{LspServers} (isEnabled : bool)
    (filePath workspaceRoot language : option string) (w : World) : World :=
  if negb isEnabled || negb (truthy filePath) || negb (truthy workspaceRoot)
     || negb (truthy language)
  then
    if truthy (serverIdRef (refs w)) || hasIncrementedRefRef (refs w)
    then setServerId None (setIsConnected false (performCleanup w))
    else w
  else if negb (hasLspSupport (str language)) then w
  else
    let w := setIsLoading true w in
    let w := setError None w in
    let w := issue (GetServerStatus (str language)) w in
    withActivations
      (activations w ++
         [mkActivation (str language) (str workspaceRoot) (str filePath) true
            AwaitingStatus]) w.

Definition setActivation (i : nat) (a : Activation) (w : World) : World :=
  withActivations (<[i := a]> (activations w)) w.

Definition settle (i : nat) (a : Activation) (w : World) : World :=
  setActivation i
    (mkActivation (act_language a) (act_workspaceRoot a) (act_filePath a)
       (isMounted a) Settled) w.

(** The cleanup function returned by the effect run [i]. *)
Definition effectCleanup (i : nat) (w : World) : World :=
  match activations w !! i with
  | None => w
  | Some a =>
      let w :=
        setActivation i
          (mkActivation (act_language a) (act_workspaceRoot a) (act_filePath a)
             false (pc a)) w in
      performCleanup w
  end.

(** The [finally] block of [initializeConnection]. *)
Definition finallyBlock (a : Activation) (w : World) : World :=
  if isMounted a then setIsLoading false w else w.

(** The [catch] block: [e instanceof Error ? e.message : '...']. *)
Definition catchBlock (a : Activation) (reason : option string) (w : World)
  : World :=
  if isMounted a
  then setError (Some (default "Failed to start LSP server" reason)) w
  else w.

(** The tail of the [try] block, once [serverId] is known. *)
Definition connect (a : Activation) (sid : string) (w : World) : World :=
  if isMounted a then
    let w := setServerIdRef (Some sid) w in
    let w := setLanguageRef (Some (act_language a)) w in
    let w := setWorkspaceRootRef (Some (act_workspaceRoot a)) w in
    let w := setServerId (Some sid) w in
    let w := setIsConnected true w in
    withManager
      (register (act_filePath a) sid (act_language a) (act_workspaceRoot a)
         (manager w))
      (issue (ManagerRegister (act_filePath a) sid (act_language a)
                (act_workspaceRoot a)) w)
  else w.

(** The user-facing messages of the two "not available" branches. *)
Definition notInstalledMessage `{LspServers} (language : string) : string :=
  "LSP server for " ++ getLanguageDisplayName language
    ++ " is not installed. Click to install.".

Definition config_command_or_unknown (c : option ServerConfig) : string :=
  match c with
  | Some c => if String.eqb (config_command c) "" then "unknown" else config_command c
  | None => "unknown"
  end.

Definition notAvailableMessage `{LspServers} (language : string) : string :=
  "LSP server not available. Please install: "
    ++ config_command_or_unknown (getServerConfig language).

Definition config_name_or (c : option ServerConfig) (language : string) : string :=
  match c with
  | Some c => if String.eqb (config_name c) "" then language else config_name c
  | None => language
  end.

(** [initializeConnection] from the point where [getServerStatus] is
    fulfilled with [status], up to the next [await] or to the end.
    [incrementResult] is what [lspService.incrementRefCount] answers if it
    is called. *)
Definition statusFulfilled `{LspServers} (i : nat) (status : ServerStatus)
    (incrementResult : bool) (w : World) : World :=
  match activations w !! i with
  | None => w
  | Some a =>
    match pc a with
    | AwaitingStatus =>
      let language := act_language a in
      let workspaceRoot := act_workspaceRoot a in
      if negb (available status) then
        if canDownload status then
          let pendingDownload :=
            mkPendingDownload language (getLanguageDisplayName language)
              (config_name_or (getServerConfig language) language)
              (downloadUrl status) in
          let w := withStore (addPendingDownload pendingDownload (store w))
                     (issue (AddPendingDownload pendingDownload) w) in
          let w :=
            if isMounted a
            then setIsLoading false (setError (Some (notInstalledMessage language)) w)
            else w in
          settle i a (finallyBlock a w)
        else
          let w :=
            if isMounted a
            then setIsLoading false (setError (Some (notAvailableMessage language)) w)
            else w in
          settle i a (finallyBlock a w)
      else
        let existingConnection :=
          getConnectionByRoot workspaceRoot language (manager w) in
        let '(sid, w) :=
          match existingConnection with
          | Some existing =>
              let success := incrementResult in
              let w := issue (IncrementRefCount (conn_serverId existing) success) w in
              if success
              then (Some (conn_serverId existing), setHasIncrementedRefRef true w)
              else (None,
                    withManager (unregisterServer (conn_serverId existing) (manager w))
                      (issue (ManagerUnregisterServer (conn_serverId existing)) w))
          | None => (None, w)
          end in
        if negb (truthy sid) then
          setActivation i
            (mkActivation language workspaceRoot (act_filePath a) (isMounted a)
               AwaitingStart)
            (issue (StartServer language workspaceRoot) w)
        else
          settle i a (finallyBlock a (connect a (str sid) w))
    | _ => w
    end
  end.

(** [getServerStatus] is rejected: [catch], then [finally]. *)
Definition statusRejected (i : nat) (reason : option string) (w : World) : World :=
  match activations w !! i with
  | None => w
  | Some a =>
    match pc a with
    | AwaitingStatus => settle i a (finallyBlock a (catchBlock a reason w))
    | _ => w
    end
  end.

(** [startServer] is fulfilled with [sid]. *)
Definition startFulfilled (i : nat) (sid : string) (w : World) : World :=
  match activations w !! i with
  | None => w
  | Some a =>
    match pc a with
    | AwaitingStart =>
      let w := setHasIncrementedRefRef true w in
      settle i a (finallyBlock a (connect a sid w))
    | _ => w
    end
  end.

(** [startServer] is rejected. *)
Definition startRejected (i : nat) (reason : option string) (w : World) : World :=
  match activations w !! i with
  | None => w
  | Some a =>
    match pc a with
    | AwaitingStart => settle i a (finallyBlock a (catchBlock a reason w))
    | _ => w
    end
  end.

(** [const language = filePath ? getLanguageIdForPath(filePath) : null] *)
Definition languageOf `{LspServers} (filePath : option string) : option string :=
  if truthy filePath then getLanguageIdForPath (str filePath) else None.

(** What can happen to a view, one scheduling step at a time. *)
Inductive Event :=
| EffectRun (isEnabled : bool) (filePath workspaceRoot : option string)
| EffectCleanup (i : nat)
| StatusFulfilled (i : nat) (status : ServerStatus) (incrementResult : bool)
| StatusRejected (i : nat) (reason : option string)
| StartFulfilled (i : nat) (sid : string)
| StartRejected (i : nat) (reason : option string).

Definition step `{LspServers} (w : World) (e : Event) : World :=
  match e with
  | EffectRun isEnabled filePath workspaceRoot =>
      runEffect isEnabled filePath workspaceRoot (languageOf filePath) w
  | EffectCleanup i => effectCleanup i w
  | StatusFulfilled i status incrementResult =>
      statusFulfilled i status incrementResult w
  | StatusRejected i reason => statusRejected i reason w
  | StartFulfilled i sid => startFulfilled i sid w
  | StartRejected i reason => startRejected i reason w
  end.

Definition run `{LspServers} (events : list Event) (w : World) : World :=
  fold_left step events w.

(** ** The diagnostics subscription *)

(** What the handler finds when it runs: [editor] non-null,
    [editor.getModel()] non-null, [window.monaco] defined. *)
Record EditorEnv := mkEditorEnv {
  hasEditor : bool;
  hasModel : bool;
  hasMonaco : bool;
}.

Definition mapLspSeverity (severity : option Z) : MarkerSeverity :=
  match severity with
  | Some 1%Z => MarkerError
  | Some 2%Z => MarkerWarning
  | Some 3%Z => MarkerInfo
  | Some 4%Z => MarkerHint
  | _ => MarkerInfo
  end.

(** The severity filter applied before building markers. *)
Definition markerVisible (st : LspState) (d : Diagnostic) : bool :=
  match severity d with
  | Some 1%Z => showErrors st
  | Some 2%Z => showWarnings st
  | Some 3%Z => showInfo st
  | Some 4%Z => showHints st
  | _ => true
  end.

Definition toMarker (source : string) (d : Diagnostic) : Marker :=
  mkMarker (mapLspSeverity (severity d)) (message d)
    (line (range_start (range d)) + 1) (character (range_start (range d)) + 1)
    (line (range_end (range d)) + 1) (character (range_end (range d)) + 1)
    source (codeToString (code d)).

(** [uri.startsWith('file://') ? uri.slice(7) : uri] *)
Definition uriToPath (uri : string) : string :=
  if String.prefix "file://" uri
  then String.substring 7 (String.length uri - 7) uri
  else uri.

(** [value || fallback] on strings. *)
Definition orElse (value : option string) (fallback : string) : string :=
  if truthy value then str value else fallback.

(** The callback passed to [lspService.onDiagnostics], for the render in
    which the hook was given [filePath]. *)
Definition onDiagnostics `{LspProtocol} `{LspServers} (env : EditorEnv)
    (filePath : option string) (uri : string) (diagnostics : list Diagnostic)
    (w : World) : World :=
  let w := withStore (setDiagnostics uri diagnostics (store w)) w in
  if hasEditor env && truthy filePath then
    if negb (showDiagnostics (store w)) then w
    else if negb (hasModel env) then w
    else if negb (hasMonaco env) then w
    else
      let diagnosticFilePath := uriToPath uri in
      if negb (String.eqb diagnosticFilePath (str filePath)) then w
      else
        let diagnosticLang := getLanguageIdForPath diagnosticFilePath in
        let currentLang := languageRef (refs w) in
        if truthy diagnosticLang && truthy currentLang
           && negb (String.eqb (str diagnosticLang) (str currentLang))
        then w
        else
          let diagnosticLanguage :=
            orElse (getLanguageIdForPath diagnosticFilePath) "lsp" in
          let markers :=
            map (toMarker diagnosticLanguage)
              (List.filter (markerVisible (store w)) diagnostics) in
          issue (SetModelMarkers "lsp" markers) w
  else w.

(** ** Document actions *)

Inductive Outcome :=
| Returned
| Threw (message : string).

(** [openDocument] up to its [await]: [inl] when the call ends before it,
    [inr] when the notification has been issued and the call is suspended. *)
Definition openDocumentBegin `{LspServers} (filePath : option string)
    (content : string) (w : World) : (Outcome * World) + World :=
  if negb (truthy (serverIdRef (refs w))) || negb (truthy filePath)
     || negb (truthy (languageRef (refs w)))
  then inl (Threw "LSP server not connected", w)
  else if isDocumentOpenRef (refs w)
          && bool_decide (filePathRef (refs w) = filePath)
  then inl (Returned, w)
  else
    let lspLanguageId :=
      orElse (getLspLanguageIdForPath (str filePath)) (str (languageRef (refs w))) in
    inr (issue (OpenDocument (str (serverIdRef (refs w))) (str filePath)
                  lspLanguageId content) w).

(** The two assignments after the [await]. *)
Definition openDocumentResume (filePath : option string) (w : World) : World :=
  setIsDocumentOpenRef true (setFilePathRef filePath w).

(** An awaited [openDocument]: [rejection] is [None] when
    [lspService.openDocument] is fulfilled, the error message otherwise. *)
Definition openDocument `{LspServers} (filePath : option string)
    (content : string) (rejection : option string) (w : World)
  : Outcome * World :=
  match openDocumentBegin filePath content w with
  | inl r => r
  | inr w =>
      match rejection with
      | None => (Returned, openDocumentResume filePath w)
      | Some message => (Threw message, w)
      end
  end.

Definition updateDocument (content : string) (rejection : option string)
    (w : World) : Outcome * World :=
  if negb (truthy (serverIdRef (refs w))) || negb (truthy (filePathRef (refs w)))
  then (Returned, w)
  else
    let w := issue (ChangeDocument (str (serverIdRef (refs w)))
                      (str (filePathRef (refs w))) content) w in
    match rejection with
    | None => (Returned, w)
    | Some message => (Threw message, w)
    end.

Definition closeDocument (rejection : option string) (w : World)
  : Outcome * World :=
  if negb (truthy (serverIdRef (refs w))) || negb (truthy (filePathRef (refs w)))
  then (Returned, w)
  else
    let w := issue (CloseDocument (str (serverIdRef (refs w)))
                      (str (filePathRef (refs w)))) w in
    match rejection with
    | None => (Returned, setIsDocumentOpenRef false w)
    | Some message => (Threw message, w)
    end.


(** ** Observations on the log of calls *)

Definition isStartServer (c : Call) : bool :=
  match c with StartServer _ _ => true | _ => false end.

Definition isDecrementOf (sid : string) (c : Call) : bool :=
  match c with DecrementRefCount s => String.eqb s sid | _ => false end.

Definition isDecrement (c : Call) : bool :=
  match c with DecrementRefCount _ => true | _ => false end.

Definition isOpenDocument (c : Call) : bool :=
  match c with OpenDocument _ _ _ _ => true | _ => false end.

Definition isSetModelMarkers (c : Call) : bool :=
  match c with SetModelMarkers _ _ => true | _ => false end.

Definition count (p : Call → bool) (l : list Call) : nat :=
  length (List.filter p l).

(** The [DecrementRefCount] calls of a log, in order. *)
Definition decrements (l : list Call) : list Call := List.filter isDecrement l.

(** What [performCleanup] releases: one [decrementRefCount], against the
    server recorded in [serverIdRef], when the flag is set and that ref is
    set; nothing otherwise. *)
Definition released (w : World) : list Call :=
  if hasIncrementedRefRef (refs w) && truthy (serverIdRef (refs w))
  then [DecrementRefCount (str (serverIdRef (refs w)))]
  else [].

(** What [performCleanup] sends before releasing: [closeDocument] when the
    view is connected, the document open and its path tracked; the
    manager's [unregister] when a path is tracked. *)
Definition closed (w : World) : list Call :=
  if truthy (serverIdRef (refs w)) && isDocumentOpenRef (refs w)
     && truthy (filePathRef (refs w))
  then [CloseDocument (str (serverIdRef (refs w))) (str (filePathRef (refs w)))]
  else [].

Definition unregistered (w : World) : list Call :=
  if truthy (filePathRef (refs w))
  then [ManagerUnregister (str (filePathRef (refs w)))]
  else [].

(** Does the event hand the view a server reference when it happens in
    [w]?  It does when [startServer] is fulfilled for an activation waiting
    for it, and when the status arrives for an activation waiting for it,
    the server is available, a connection is indexed for the activation's
    key and [incrementRefCount] answers [true]. *)
Definition acquires (w : World) (e : Event) : nat :=
  match e with
  | StartFulfilled i _ =>
      match activations w !! i with
      | Some a => match pc a with AwaitingStart => 1 | _ => 0 end
      | None => 0
      end
  | StatusFulfilled i status true =>
      match activations w !! i with
      | Some a =>
          match pc a with
          | AwaitingStatus =>
              if available status then
                match getConnectionByRoot (act_workspaceRoot a) (act_language a)
                        (manager w) with
                | Some _ => 1
                | None => 0
                end
              else 0
          | _ => 0
          end
      | None => 0
      end
  | _ => 0
  end.

(** The references handed to the view along a run. *)
Fixpoint acquiredAlong `{LspServers} (events : list Event) (w : World) : nat :=
  match events with
  | [] => 0
  | e :: events => acquires w e + acquiredAlong events (step w e)
  end.

(** The flag as a number: the reference the view believes it holds. *)
Definition held (w : World) : nat :=
  if hasIncrementedRefRef (refs w) then 1 else 0.

(** The markers the handler builds from an event, for a store and a file. *)
Definition markersFor `{LspServers} (st : LspState) (diagnosticFilePath : string)
    (diagnostics : list Diagnostic) : list Marker :=
  map (toMarker (orElse (getLanguageIdForPath diagnosticFilePath) "lsp"))
    (List.filter (markerVisible st) diagnostics).

End UseLsp.

(* ====================================================================== *)
(** * The Qwen Code OAuth store *)
(* ====================================================================== *)

Module QwenCodeOAuth.

(** [interface QwenCodeOAuthState] *)
Record QwenCodeOAuthState := mkState {
  isConnected : bool;
  isLoading : bool;
  error : option string;
  tokenPath : option string;
  isInitialized : bool;
}.

(** The initial state passed to [create]. *)
Definition initialState : QwenCodeOAuthState :=
  mkState false false None None false.

(** How an awaited call to a collaborator (the settings database, the token
    file) ends.  A rejection carries the message of the error when the
    value thrown is an [Error]. *)
Inductive Awaited (A : Type) :=
| Fulfilled (value : A)
| Rejected (reason : option string).
Arguments Fulfilled {A} value.
Arguments Rejected {A} reason.

(** How an action of the store ends. *)
Inductive Outcome (A : Type) :=
| Returned (value : A)
| Threw (reason : option string).
Arguments Returned {A} value.
Arguments Threw {A} reason.

(** [e instanceof Error ? e.message : fallback] *)
Definition messageOf (reason : option string) (fallback : string) : string :=
  default fallback reason.

(** [validateTokenPath] of the service: [readTokenFromPath] throws
    'Token path is required' for an empty path, and whatever else makes it
    throw is folded into [readable]. *)
Definition validateTokenPath (readable : bool) (path : string) : bool :=
  if String.eqb path "" then false else readable.

Definition initialize (stored : Awaited (option string)) (readable : bool)
    (s : QwenCodeOAuthState) : QwenCodeOAuthState :=
  if isInitialized s || isLoading s then s
  else
    match stored with
    | Fulfilled value =>
        (* (await db.get(STORAGE_KEY)) || null *)
        let path := if truthy value then value else None in
        let connected :=
          match path with
          | Some p => if truthy path then validateTokenPath readable p else false
          | None => false
          end in
        mkState connected false None path true
    | Rejected reason =>
        mkState (isConnected s) false
          (Some (messageOf reason "Failed to initialize")) (tokenPath s) true
    end.

Definition invalidPathMessage : string :=
  "Invalid token path or unable to read token, please login in Qwen Code first.".

Definition setTokenPath (path : string) (readable : bool) (saved : Awaited unit)
    (s : QwenCodeOAuthState) : Outcome unit * QwenCodeOAuthState :=
  if negb (validateTokenPath readable path) then
    (Threw (Some invalidPathMessage),
     mkState (isConnected s) false (Some invalidPathMessage) (tokenPath s)
       (isInitialized s))
  else
    match saved with
    | Fulfilled _ =>
        (Returned tt, mkState true false None (Some path) (isInitialized s))
    | Rejected reason =>
        (Threw reason,
         mkState (isConnected s) false
           (Some (messageOf reason "Failed to set token path")) (tokenPath s)
           (isInitialized s))
    end.

Definition disconnect (saved : Awaited unit) (s : QwenCodeOAuthState)
  : Outcome unit * QwenCodeOAuthState :=
  match saved with
  | Fulfilled _ =>
      (Returned tt, mkState false false None None (isInitialized s))
  | Rejected reason =>
      (Threw reason,
       mkState (isConnected s) false
         (Some (messageOf reason "Failed to disconnect")) (tokenPath s)
         (isInitialized s))
  end.

Definition getToken (read : Awaited string) (s : QwenCodeOAuthState)
  : Outcome (option string) * QwenCodeOAuthState :=
  if negb (truthy (tokenPath s)) then (Returned None, s)
  else
    match read with
    | Fulfilled token => (Returned (Some token), s)
    | Rejected reason =>
        (Returned None,
         mkState false (isLoading s)
           (Some (messageOf reason "Failed to read token")) (tokenPath s)
           (isInitialized s))
    end.

(** [tokenValid] is the answer of [testToken] on the token read. *)
Definition testConnection (read : Awaited string) (tokenValid : bool)
    (s : QwenCodeOAuthState) : Outcome bool * QwenCodeOAuthState :=
  if negb (truthy (tokenPath s)) then
    (Returned false,
     mkState (isConnected s) (isLoading s) (Some "No token path configured")
       (tokenPath s) (isInitialized s))
  else
    match read with
    | Fulfilled _ =>
        if tokenValid
        then (Returned true,
              mkState true false None (tokenPath s) (isInitialized s))
        else (Returned false,
              mkState false false (Some "Token validation failed")
                (tokenPath s) (isInitialized s))
    | Rejected reason =>
        (Returned false,
         mkState false false
           (Some (messageOf reason "Connection test failed")) (tokenPath s)
           (isInitialized s))
    end.

(** [isQwenCodeOAuthConnected]: initialize if needed, then read the flag. *)
Definition isQwenCodeOAuthConnected (stored : Awaited (option string))
    (readable : bool) (s : QwenCodeOAuthState) : bool * QwenCodeOAuthState :=
  let s := if negb (isInitialized s) then initialize stored readable s else s in
  (isConnected s, s).

(** The actions of the store, each with the answers its collaborators give
    while it runs; the actions are awaited one after the other. *)
Inductive Action :=
| Initialize (stored : Awaited (option string)) (readable : bool)
| SetTokenPath (path : string) (readable : bool) (saved : Awaited unit)
| Disconnect (saved : Awaited unit)
| GetToken (read : Awaited string)
| TestConnection (read : Awaited string) (tokenValid : bool).

Definition dispatch (s : QwenCodeOAuthState) (a : Action) : QwenCodeOAuthState :=
  match a with
  | Initialize stored readable => initialize stored readable s
  | SetTokenPath path readable saved => (setTokenPath path readable saved s).2
  | Disconnect saved => (disconnect saved s).2
  | GetToken read => (getToken read s).2
  | TestConnection read tokenValid => (testConnection read tokenValid s).2
  end.

Definition runActions (actions : list Action) (s : QwenCodeOAuthState)
  : QwenCodeOAuthState :=
  fold_left dispatch actions s.

(** ** The endpoint of the provider's fetch function *)

(** [s.endsWith(suffix)]: some tail of [s] is [suffix]. *)
Fixpoint endsWith (suffix s : string) : bool :=
  String.eqb s suffix
  || match s with
     | EmptyString => false
     | String _ rest => endsWith suffix rest
     end.

(** The endpoint computed from [credentials.resource_url]:
    [resource_url || 'dashscope.aliyuncs.com/compatible-mode'], made
    absolute with [https://] and closed with [/v1]. *)
Definition endpointOf (resource_url : option string) : string :=
  let baseEndpoint :=
    if truthy resource_url then default "" resource_url
    else "dashscope.aliyuncs.com/compatible-mode" in
  let suffix := "/v1" in
  let normalizedUrl :=
    if String.prefix "http" baseEndpoint then baseEndpoint
    else "https://" ++ baseEndpoint in
  if endsWith suffix normalizedUrl then normalizedUrl
  else normalizedUrl ++ suffix.

End QwenCodeOAuth.

(* ====================================================================== *)
(** * Sample collaborators, for evaluating the model on concrete inputs *)
(* ====================================================================== *)

Module Samples.

Import ConnectionManager LspStore UseLsp.

Definition endsWith (suffix s : string) : bool :=
  String.prefix (String.rev suffix) (String.rev s).

(** The usual protocol numbering of severities. *)
Definition sampleProtocol : LspProtocol := {|
  severityToString z :=
    match z with
    | 1%Z => "error"
    | 2%Z => "warning"
    | 3%Z => "info"
    | 4%Z => "hint"
    | _ => "info"
    end;
  uriToFilePath := uriToPath;
|}.

(** Two supported languages and one without a server. *)
Definition sampleServers : LspServers := {|
  getLanguageIdForPath p :=
    if endsWith ".ts" p || endsWith ".tsx" p then Some "typescript"
    else if endsWith ".py" p then Some "python"
    else if endsWith ".rs" p then Some "rust"
    else None;
  getLspLanguageIdForPath p :=
    if endsWith ".tsx" p then Some "typescriptreact"
    else if endsWith ".ts" p then Some "typescript"
    else if endsWith ".py" p then Some "python"
    else if endsWith ".rs" p then Some "rust"
    else None;
  hasLspSupport l :=
    String.eqb l "typescript" || String.eqb l "python" || String.eqb l "rust";
  getServerConfig l :=
    if String.eqb l "typescript"
    then Some (mkServerConfig "TypeScript Language Server" "typescript-language-server")
    else if String.eqb l "python" then Some (mkServerConfig "Pyright" "pyright-langserver")
    else if String.eqb l "rust" then Some (mkServerConfig "rust-analyzer" "rust-analyzer")
    else None;
  getLanguageDisplayName l :=
    if String.eqb l "typescript" then "TypeScript"
    else if String.eqb l "python" then "Python"
    else if String.eqb l "rust" then "Rust"
    else l;
|}.

Definition sampleRange : Range := mkRange (mkPosition 0 0) (mkPosition 0 5).

Definition sampleDiagnostics : list Diagnostic :=
  [ mkDiagnostic (Some 1%Z) "Cannot find name" sampleRange (Some (CodeNumber 2304));
    mkDiagnostic (Some 2%Z) "Unused variable" sampleRange None;
    mkDiagnostic None "Unknown" sampleRange (Some (CodeString "E1")) ].

(** The view of scenario 5: a Rust file, no server installed, none
    downloadable. *)
Definition rustActivation : World :=
  @runEffect sampleServers true (Some "/repo/src/main.rs") (Some "/repo")
    (Some "rust") initialWorld.

(** The view of scenario 6: another view's file is indexed under [srv-5]
    for (/repo, typescript) when view D activates. *)
Definition viewD : World :=
  @runEffect sampleServers true (Some "/repo/d.ts") (Some "/repo")
    (Some "typescript")
    (withManager (register "/repo/b.ts" "srv-5" "typescript" "/repo"
                    ConnectionManager.empty) initialWorld).

Definition serverAvailable : ServerStatus := mkServerStatus true false None.

(** A view opens [/repo/a.ts]; it is deactivated while [startServer] is
    pending; [startServer] then answers [srv-1]. *)
Definition deactivatedInFlight : list Event :=
  [ EffectRun true (Some "/repo/a.ts") (Some "/repo");
    StatusFulfilled 0 serverAvailable false;
    EffectCleanup 0;
    StartFulfilled 0 "srv-1" ].

(** The same view, later rendered disabled. *)
Definition deactivatedInFlightThenDisabled : list Event :=
  (deactivatedInFlight ++ [ EffectRun false (Some "/repo/a.ts") (Some "/repo") ])%list.

(** The same file, activated to completion and then deactivated. *)
Definition activatedThenDeactivated : list Event :=
  [ EffectRun true (Some "/repo/a.ts") (Some "/repo");
    StatusFulfilled 0 serverAvailable false;
    StartFulfilled 0 "srv-1";
    EffectCleanup 0 ].

Definition fullEditor : EditorEnv := mkEditorEnv true true true.

(** A view showing [/repo/a.ts] whose [languageRef] still holds the
    language of the file shown before. *)
Definition staleLanguageView : World :=
  setLanguageRef (Some "python") (setServerIdRef (Some "srv-2") initialWorld).

(** A view connected to [srv-1] for a TypeScript file. *)
Definition connectedView : World :=
  setLanguageRef (Some "typescript") (setServerIdRef (Some "srv-1") initialWorld).

End Samples.

(* ====================================================================== *)
(** * Facts about the connection manager *)
(* ====================================================================== *)

Module ConnectionManagerFacts.

Import ConnectionManager.


Lemma setsNonEmpty_empty : setsNonEmpty empty.
Proof. intros key refs. simpl. by rewrite lookup_empty. Qed.

Lemma setsNonEmpty_register filePath serverId language rootPath m :
  setsNonEmpty m → setsNonEmpty (register filePath serverId language rootPath m).
Proof.
  intros Hm key refs. unfold register. cbn [serverReferences].
  destruct (decide (refKey rootPath language = key)) as [<-|Hne].
  - rewrite lookup_insert_eq. intros Heq. injection Heq as <-. simpl. set_solver.
  - rewrite lookup_insert_ne by done. apply Hm.
Qed.

Lemma setsNonEmpty_unregister filePath m :
  setsNonEmpty m → setsNonEmpty (unregister filePath m).2.
Proof.
  intros Hm. unfold unregister.
  destruct (connections m !! filePath) as [conn|]; [|done].
  destruct (serverReferences m !! _) as [refs|] eqn:Hrefs; [|done].
  simpl. case_bool_decide as Hsize; intros key refs'; cbn [snd serverReferences].
  - destruct (decide (refKey (conn_rootPath conn) (conn_language conn) = key))
      as [<-|Hne].
    + by rewrite lookup_delete_eq.
    + rewrite lookup_delete_ne by done. apply Hm.
  - destruct (decide (refKey (conn_rootPath conn) (conn_language conn) = key))
      as [<-|Hne].
    + rewrite lookup_insert_eq. intros [= <-]. simpl.
      intros Hempty. apply Hsize. rewrite Hempty. apply size_empty.
    + rewrite lookup_insert_ne by done. apply Hm.
Qed.

Lemma setsNonEmpty_unregisterServer serverId m :
  setsNonEmpty m → setsNonEmpty (unregisterServer serverId m).
Proof.
  intros Hm key refs. unfold unregisterServer. cbn [serverReferences].
  rewrite map_lookup_filter_Some. intros [Hl _]. by eapply Hm.
Qed.

(** Registering a file whose key already has an entry holding it leaves the
    reference index as it is. *)
Lemma register_references_again filePath serverId language rootPath m refs :
  serverReferences m !! refKey rootPath language = Some refs →
  filePath ∈ filePaths refs →
  serverReferences (register filePath serverId language rootPath m)
  = serverReferences m.
Proof.
  intros Hrefs Hin. unfold register. cbn [serverReferences]. rewrite Hrefs.
  apply insert_id. rewrite Hrefs. f_equal.
  destruct refs as [s l r fs]. unfold addFilePath. simpl in *. f_equal.
  apply leibniz_equiv. set_solver.
Qed.

Lemma register_references_lookup filePath serverId language rootPath m :
  ∃ refs,
    serverReferences (register filePath serverId language rootPath m)
      !! refKey rootPath language = Some refs
    ∧ filePath ∈ filePaths refs.
Proof.
  unfold register. cbn [serverReferences]. rewrite lookup_insert_eq.
  eexists. split; [reflexivity|]. simpl. set_solver.
Qed.




Lemma filter_none {A} (P : A → Prop) `{∀ x, Decision (P x)} (l : list A) :
  (∀ x, x ∈ l → ¬ P x) → filter P l = [].
Proof.
  induction l as [|a l IH]; intros Hl; [reflexivity|].
  rewrite filter_cons. destruct (decide (P a)) as [Hp|_].
  - exfalso. apply (Hl a); [left | done].
  - apply IH. intros x Hx. apply Hl. by right.
Qed.

(** After two same-key registrations into a manager that did not reference
    the file, every server counts the file at most once. *)
Lemma register_twice_counts_once
    (filePath s1 s2 language rootPath serverId : string)
    (m : LspConnectionManager) :
  unreferenced filePath m →
  (fileOccurrences serverId filePath
     (register filePath s2 language rootPath
        (register filePath s1 language rootPath m)) ≤ 1)%nat.
Proof.
  intros Hfresh.
  destruct (register_references_lookup filePath s1 language rootPath m)
    as (refs & Hl & Hin).
  unfold fileOccurrences.
  rewrite (register_references_again _ _ _ _ _ _ Hl Hin).
  unfold register. cbn [serverReferences].
  set (v := addFilePath filePath _).
  rewrite <- insert_delete_eq.
  rewrite (Permutation_length
             (filter_Permutation _ _ _
                (map_to_list_insert _ _ v (lookup_delete_eq _ _)))).
  rewrite filter_cons.
  assert (Hrest :
    filter (λ kv : string * ServerFileReferences,
              refs_serverId kv.2 = serverId ∧ filePath ∈ filePaths kv.2)
      (map_to_list (delete (refKey rootPath language) (serverReferences m))) = []).
  { apply filter_none. intros [k x] Hkx [_ Hf].
    apply elem_of_map_to_list in Hkx.
    apply lookup_delete_Some in Hkx as [_ Hkx].
    by apply (Hfresh k x). }
  rewrite Hrest. case_decide; simpl; lia.
Qed.

(** C5: for a registered [filePath], in a manager whose reference entries
    are non-empty (as they are in every state the operations reach),
    [unregister] removes the file's [FileConnection], leaves the other
    connections alone, and returns [true] exactly when the reference entry
    of the connection's (rootPath, language) key held that file and no
    other, that is when the removal emptied it; the entry is then removed
    from the index, and otherwise it stays, without the file. *)
Theorem unregister_registered
    (filePath : string) (conn : LspConnection) (m : LspConnectionManager)
    (Hwf : setsNonEmpty m)
    (Hconn : connections m !! filePath = Some conn) :
  let key := refKey (conn_rootPath conn) (conn_language conn) in
  let result := unregister filePath m in
  connections result.2 !! filePath = None
  ∧ (∀ other, other ≠ filePath →
       connections result.2 !! other = connections m !! other)
  ∧ (result.1 = true ↔
       ∃ refs, serverReferences m !! key = Some refs
               ∧ filePaths refs = {[filePath]})
  ∧ (result.1 = true → serverReferences result.2 !! key = None)
  ∧ (result.1 = false → ∀ refs,
       serverReferences m !! key = Some refs →
       serverReferences result.2 !! key = Some (deleteFilePath filePath refs))
  ∧ (∀ other, other ≠ key →
       serverReferences result.2 !! other = serverReferences m !! other).
Proof.
  intros key result. unfold result, unregister. rewrite Hconn. fold key.
  destruct (serverReferences m !! key) as [refs|] eqn:Hrefs.
  - cbv zeta. case_bool_decide as Hsize; cbn [fst snd connections serverReferences];
      unfold deleteFilePath in Hsize; cbn [filePaths] in Hsize.
    + apply size_empty_inv in Hsize. apply leibniz_equiv in Hsize.
      split_and!.
      * apply lookup_delete_eq.
      * intros other Hne. by apply lookup_delete_ne.
      * split; [|done]. intros _. exists refs. split; [done|].
        pose proof (Hwf _ _ Hrefs) as Hne.
        apply leibniz_equiv. apply set_equiv. intros x.
        rewrite elem_of_singleton. split.
        -- intros Hx. destruct (decide (x = filePath)) as [|Hxf]; [done|].
           exfalso. assert (x ∈ filePaths refs ∖ {[filePath]}) as Hx' by set_solver.
           rewrite Hsize in Hx'. set_solver.
        -- intros ->. destruct (decide (filePath ∈ filePaths refs)); [done|].
           exfalso. apply Hne. apply leibniz_equiv. set_solver.
      * intros _. apply lookup_delete_eq.
      * discriminate.
      * intros other Hne. by apply lookup_delete_ne.
    + split_and!.
      * apply lookup_delete_eq.
      * intros other Hne. by apply lookup_delete_ne.
      * split; [discriminate|]. intros (refs' & Heq & Hfp).
        injection Heq as <-.
        exfalso. apply Hsize. rewrite Hfp.
        replace ({[filePath]} ∖ {[filePath]} : gset string) with (∅ : gset string)
          by (apply leibniz_equiv; set_solver).
        apply size_empty.
      * discriminate.
      * intros _ refs' [= <-]. apply lookup_insert_eq.
      * intros other Hne. by apply lookup_insert_ne.
  - cbn [fst snd connections serverReferences]. split_and!.
    + apply lookup_delete_eq.
    + intros other Hne. by apply lookup_delete_ne.
    + split; [discriminate|]. by intros (refs & ? & _).
    + discriminate.
    + intros _ refs. done.
    + done.
Qed.

Lemma unregister_registered_witness :
  (unregister "/repo/a.ts"
     (register "/repo/a.ts" "srv-1" "typescript" "/repo" empty)).1 = true
  ↔ ∃ refs,
      serverReferences (register "/repo/a.ts" "srv-1" "typescript" "/repo" empty)
        !! refKey "/repo" "typescript" = Some refs
      ∧ filePaths refs = {["/repo/a.ts"]}.
Proof.
  pose proof (unregister_registered "/repo/a.ts"
                (mkLspConnection "srv-1" "typescript" "/repo")
                (register "/repo/a.ts" "srv-1" "typescript" "/repo" empty)
                (setsNonEmpty_register _ _ _ _ _ setsNonEmpty_empty)
                (lookup_insert_eq _ _ _)) as H.
  cbv zeta in H. destruct H as (_ & _ & H & _). exact H.
Defined.

(** C6: for a [filePath] without a [FileConnection] (never registered, or
    already unregistered) [unregister] returns [false], the "not found"
    result, and the manager is left exactly as it was; in particular no
    server's file reference count moves.  The function never reaches the
    server registry, whose reference counts it has no access to. *)
Theorem unregister_unknown
    (filePath : string) (m : LspConnectionManager)
    (Hnone : connections m !! filePath = None) :
  unregister filePath m = (false, m)
  ∧ ∀ serverId,
      getFileReferenceCount serverId (unregister filePath m).2
      = getFileReferenceCount serverId m.
Proof.
  unfold unregister. rewrite Hnone. split; [reflexivity|]. intros. reflexivity.
Qed.

Lemma unregister_unknown_witness :
  connections empty !! "/repo/a.ts" = None
  ∧ unregister "/repo/a.ts" empty = (false, empty).
Proof.
  split; [apply lookup_empty|].
  exact (proj1 (unregister_unknown "/repo/a.ts" empty (lookup_empty _))).
Defined.


(** ** Lookups after [register] *)

(** After [register] the file has the connection just given, the
    connections of other files are as before, and [getConnectionByRoot]
    finds a server for the key: the one already indexed there if any,
    otherwise the one just registered. *)
Theorem register_then_lookup
    (filePath serverId language rootPath : string) (m : LspConnectionManager) :
  let m' := register filePath serverId language rootPath m in
  hasConnection filePath m' = true
  ∧ getConnection filePath m' = Some (mkLspConnection serverId language rootPath)
  ∧ (∀ other, other ≠ filePath → getConnection other m' = getConnection other m)
  ∧ (∃ found, getConnectionByRoot rootPath language m' = Some found
              ∧ conn_serverId found = owner rootPath language serverId m)
  ∧ (∀ r l, refKey r l ≠ refKey rootPath language →
            getConnectionByRoot r l m' = getConnectionByRoot r l m).
Proof.
  intros m'. unfold m', hasConnection, getConnection, register.
  cbn [connections]. split_and!.
  - rewrite lookup_insert_eq. by apply bool_decide_eq_true_2.
  - apply lookup_insert_eq.
  - intros other Hne. by apply lookup_insert_ne.
  - unfold getConnectionByRoot, owner, getConnectionByRoot. cbn [serverReferences].
    rewrite lookup_insert_eq.
    destruct (serverReferences m !! refKey rootPath language) as [refs|];
      eexists; (split; [reflexivity|]); reflexivity.
  - intros r l Hne. unfold getConnectionByRoot. cbn [serverReferences].
    by rewrite lookup_insert_ne.
Qed.

(** ** [getFileReferenceCount] *)

Lemma getFileReferenceCount_insert_fresh serverId key refs
    (sr : gmap string ServerFileReferences) c :
  sr !! key = None →
  getFileReferenceCount serverId (mkManager c (<[key := refs]> sr))
  = weight serverId refs + getFileReferenceCount serverId (mkManager c sr).
Proof.
  intros Hkey. unfold getFileReferenceCount. cbn [serverReferences].
  rewrite map_fold_insert_L; [|intros; repeat case_decide; lia|done].
  unfold weight. case_decide; lia.
Qed.

Lemma getFileReferenceCount_delete serverId key refs
    (sr : gmap string ServerFileReferences) c :
  sr !! key = Some refs →
  getFileReferenceCount serverId (mkManager c sr)
  = weight serverId refs
    + getFileReferenceCount serverId (mkManager c (delete key sr)).
Proof.
  intros Hkey. rewrite <- (insert_delete_id sr key refs Hkey) at 1.
  apply getFileReferenceCount_insert_fresh, lookup_delete_eq.
Qed.

Lemma getFileReferenceCount_connections serverId c c' sr :
  getFileReferenceCount serverId (mkManager c sr)
  = getFileReferenceCount serverId (mkManager c' sr).
Proof. reflexivity. Qed.

(** Registering a file that the key's entry does not hold yet raises by one
    the count of the server that owns the entry, and no other count. *)
Theorem getFileReferenceCount_register
    (filePath serverId language rootPath counted : string)
    (m : LspConnectionManager)
    (Hnew : ∀ refs, serverReferences m !! refKey rootPath language = Some refs →
                    filePath ∉ filePaths refs) :
  getFileReferenceCount counted (register filePath serverId language rootPath m)
  = getFileReferenceCount counted m
    + (if decide (owner rootPath language serverId m = counted) then 1 else 0).
Proof.
  unfold register, owner, getConnectionByRoot.
  destruct m as [c sr]. cbn [serverReferences connections] in *.
  destruct (sr !! refKey rootPath language) as [refs|] eqn:Hrefs.
  - rewrite <- (insert_delete_eq sr).
    rewrite getFileReferenceCount_insert_fresh by apply lookup_delete_eq.
    rewrite (getFileReferenceCount_delete counted _ refs sr c Hrefs).
    rewrite (getFileReferenceCount_connections counted _ c).
    unfold weight, addFilePath. cbn [refs_serverId filePaths conn_serverId].
    specialize (Hnew refs eq_refl).
    rewrite size_union, size_singleton by set_solver.
    repeat case_decide; lia.
  - rewrite getFileReferenceCount_insert_fresh by done.
    rewrite (getFileReferenceCount_connections counted _ c).
    unfold weight, addFilePath. cbn [refs_serverId filePaths].
    rewrite size_union, size_singleton, size_empty by set_solver.
    repeat case_decide; lia.
Qed.

Lemma getFileReferenceCount_register_witness :
  getFileReferenceCount "srv-1"
    (register "/repo/b.ts" "srv-9" "typescript" "/repo"
       (register "/repo/a.ts" "srv-1" "typescript" "/repo" empty))
  = getFileReferenceCount "srv-1"
      (register "/repo/a.ts" "srv-1" "typescript" "/repo" empty)
    + (if decide (owner "/repo" "typescript" "srv-9"
                    (register "/repo/a.ts" "srv-1" "typescript" "/repo" empty)
                  = "srv-1") then 1 else 0).
Proof.
  apply (getFileReferenceCount_register "/repo/b.ts" "srv-9" "typescript" "/repo"
           "srv-1" (register "/repo/a.ts" "srv-1" "typescript" "/repo" empty)).
  intros refs Hrefs. vm_compute in Hrefs. injection Hrefs as <-.
  vm_compute. discriminate.
Defined.

(** ** [register] followed by [unregister] *)

Lemma register_connections filePath serverId language rootPath m :
  connections (register filePath serverId language rootPath m)
  = <[filePath := mkLspConnection serverId language rootPath]> (connections m).
Proof. reflexivity. Qed.

Lemma register_serverReferences filePath serverId language rootPath m :
  serverReferences (register filePath serverId language rootPath m)
  = <[refKey rootPath language :=
        addFilePath filePath
          (match serverReferences m !! refKey rootPath language with
           | Some refs => refs
           | None => mkServerFileReferences serverId language rootPath ∅
           end)]> (serverReferences m).
Proof. reflexivity. Qed.

(** Registering a file that has no connection and that the key's entry
    does not hold, then unregistering it, gives back the manager as it was;
    the call reports a last reference exactly when the key had no entry
    before. *)
Theorem register_unregister_roundtrip
    (filePath serverId language rootPath : string) (m : LspConnectionManager)
    (Hwf : setsNonEmpty m)
    (Hconn : connections m !! filePath = None)
    (Hnew : ∀ refs, serverReferences m !! refKey rootPath language = Some refs →
                    filePath ∉ filePaths refs) :
  unregister filePath (register filePath serverId language rootPath m)
  = (bool_decide (serverReferences m !! refKey rootPath language = None), m).
Proof.
  unfold unregister.
  rewrite register_connections, lookup_insert_eq.
  cbn [conn_rootPath conn_language].
  rewrite register_serverReferences, lookup_insert_eq. cbv zeta.
  rewrite delete_insert_eq, (delete_id (connections m)) by done.
  destruct m as [c sr]. cbn [connections serverReferences] in *.
  destruct (sr !! refKey rootPath language) as [refs|] eqn:Hrefs.
  - assert (Hsame : deleteFilePath filePath (addFilePath filePath refs) = refs).
    { destruct refs as [s l r fs]. unfold deleteFilePath, addFilePath. simpl.
      f_equal. apply leibniz_equiv. specialize (Hnew _ eq_refl). simpl in Hnew.
      set_solver. }
    rewrite Hsame, bool_decide_eq_false_2.
    + rewrite bool_decide_eq_false_2 by done.
      rewrite insert_insert_eq, insert_id by done. reflexivity.
    + intros Hsize. apply size_empty_inv in Hsize. apply leibniz_equiv in Hsize.
      by apply (Hwf _ _ Hrefs).
  - rewrite bool_decide_eq_true_2.
    + rewrite bool_decide_eq_true_2 by done.
      rewrite delete_insert_eq, (delete_id sr) by done. reflexivity.
    + apply size_empty_iff. unfold deleteFilePath, addFilePath.
      cbn [filePaths]. set_solver.
Qed.

Lemma register_unregister_roundtrip_witness :
  unregister "/repo/a.ts" (register "/repo/a.ts" "srv-1" "typescript" "/repo" empty)
  = (bool_decide (serverReferences empty !! refKey "/repo" "typescript" = None),
     empty).
Proof.
  apply (register_unregister_roundtrip "/repo/a.ts" "srv-1" "typescript" "/repo"
           empty setsNonEmpty_empty (lookup_empty _)).
  intros refs Hrefs. simpl in Hrefs. by rewrite lookup_empty in Hrefs.
Defined.

(** Unregistering a file that its key's entry holds lowers by one the count
    of the server owning that entry, and no other count. *)
Theorem getFileReferenceCount_unregister
    (filePath counted : string) (conn : LspConnection)
    (refs : ServerFileReferences) (m : LspConnectionManager)
    (Hconn : connections m !! filePath = Some conn)
    (Hrefs : serverReferences m
               !! refKey (conn_rootPath conn) (conn_language conn) = Some refs)
    (Hin : filePath ∈ filePaths refs) :
  getFileReferenceCount counted (unregister filePath m).2
  = getFileReferenceCount counted m
    - (if decide (refs_serverId refs = counted) then 1 else 0).
Proof.
  unfold unregister. rewrite Hconn, Hrefs. cbv zeta.
  destruct m as [c sr]. cbn [connections serverReferences] in *.
  assert (Hsize : size (filePaths refs)
                  = S (size (filePaths (deleteFilePath filePath refs)))).
  { unfold deleteFilePath. cbn [filePaths].
    rewrite size_difference by set_solver. rewrite size_singleton.
    assert (size (filePaths refs) ≠ 0); [|lia].
    intros Hz. apply size_empty_inv in Hz. set_solver. }
  rewrite (getFileReferenceCount_delete counted _ refs sr c Hrefs).
  case_bool_decide as Hlast; cbn [snd].
  - rewrite (getFileReferenceCount_connections counted _ c).
    unfold weight. rewrite Hsize, Hlast. case_decide; lia.
  - rewrite <- (insert_delete_eq sr).
    rewrite getFileReferenceCount_insert_fresh by apply lookup_delete_eq.
    rewrite (getFileReferenceCount_connections counted _ c).
    unfold weight. cbn [refs_serverId deleteFilePath]. rewrite Hsize.
    unfold deleteFilePath. cbn [filePaths]. case_decide; lia.
Qed.

Lemma getFileReferenceCount_unregister_witness :
  getFileReferenceCount "srv-1"
    (unregister "/repo/a.ts"
       (register "/repo/a.ts" "srv-1" "typescript" "/repo" empty)).2
  = getFileReferenceCount "srv-1"
      (register "/repo/a.ts" "srv-1" "typescript" "/repo" empty)
    - (if decide (refs_serverId
                    (mkServerFileReferences "srv-1" "typescript" "/repo"
                       (∅ ∪ {["/repo/a.ts"]})) = "srv-1") then 1 else 0).
Proof.
  apply (getFileReferenceCount_unregister "/repo/a.ts" "srv-1"
           (mkLspConnection "srv-1" "typescript" "/repo")).
  - vm_compute. reflexivity.
  - vm_compute. reflexivity.
  - vm_compute. reflexivity.
Defined.

(** ** [unregisterServer] *)

Lemma getFileReferenceCount_none serverId c (sr : gmap string ServerFileReferences) :
  (∀ key refs, sr !! key = Some refs → refs_serverId refs ≠ serverId) →
  getFileReferenceCount serverId (mkManager c sr) = 0.
Proof.
  unfold getFileReferenceCount. cbn [serverReferences].
  induction sr as [|key refs sr Hkey IH] using map_ind; intros Hsr.
  - apply map_fold_empty.
  - rewrite map_fold_insert_L; [|intros; repeat case_decide; lia|done].
    rewrite decide_False.
    + apply IH. intros k r Hk. apply (Hsr k r).
      rewrite lookup_insert_ne; [done|]. intros ->. congruence.
    + apply (Hsr key refs). apply lookup_insert_eq.
Qed.

Lemma getFileReferenceCount_filter_other serverId counted c
    (sr : gmap string ServerFileReferences) :
  counted ≠ serverId →
  getFileReferenceCount counted
    (mkManager c (filter (λ kv, refs_serverId kv.2 ≠ serverId) sr))
  = getFileReferenceCount counted (mkManager c sr).
Proof.
  intros Hne.
  induction sr as [|key refs sr Hkey IH] using map_ind.
  - by rewrite map_filter_empty.
  - rewrite (getFileReferenceCount_insert_fresh counted key refs sr c Hkey).
    destruct (decide (refs_serverId refs = serverId)) as [Heq|Hneq].
    + rewrite map_filter_insert_False by (simpl; tauto).
      rewrite delete_id by done. rewrite IH.
      unfold weight. rewrite decide_False by congruence. reflexivity.
    + rewrite map_filter_insert_True by done.
      rewrite getFileReferenceCount_insert_fresh, IH; [reflexivity|].
      apply map_lookup_filter_None. by left.
Qed.

(** [unregisterServer] drops every connection and every reference entry of
    the server and nothing else: afterwards no file is connected to it, no
    (rootPath, language) lookup finds it and its reference count is zero,
    while the connections and counts of the other servers are as before.
    A second call changes nothing. *)
Theorem unregisterServer_drops_the_server
    (serverId : string) (m : LspConnectionManager) :
  let m' := unregisterServer serverId m in
  (∀ filePath conn, getConnection filePath m' = Some conn →
                    conn_serverId conn ≠ serverId)
  ∧ (∀ filePath conn, getConnection filePath m = Some conn →
                      conn_serverId conn ≠ serverId →
                      getConnection filePath m' = Some conn)
  ∧ (∀ rootPath language found,
       getConnectionByRoot rootPath language m' = Some found →
       conn_serverId found ≠ serverId)
  ∧ getFileReferenceCount serverId m' = 0
  ∧ (∀ other, other ≠ serverId →
       getFileReferenceCount other m' = getFileReferenceCount other m)
  ∧ unregisterServer serverId m' = m'.
Proof.
  intros m'. unfold m', unregisterServer, getConnection. cbn [connections].
  split_and!.
  - intros filePath conn Hl. apply map_lookup_filter_Some in Hl. tauto.
  - intros filePath conn Hl Hne. by apply map_lookup_filter_Some.
  - intros rootPath language found. unfold getConnectionByRoot.
    cbn [serverReferences].
    destruct (filter _ (serverReferences m) !! _) as [refs|] eqn:Hrefs;
      [|discriminate].
    apply map_lookup_filter_Some in Hrefs as [_ Hne].
    intros Heq. injection Heq as <-. exact Hne.
  - apply getFileReferenceCount_none. intros key refs Hl.
    apply map_lookup_filter_Some in Hl. tauto.
  - intros other Hne.
    rewrite (getFileReferenceCount_filter_other serverId other _ _ Hne).
    destruct m. reflexivity.
  - cbn [connections serverReferences]. f_equal; apply map_filter_id;
      intros k x Hl; apply map_lookup_filter_Some in Hl; tauto.
Qed.

(** ** What every reachable manager satisfies *)

Lemma keysConsistent_perform m op : keysConsistent m → keysConsistent (perform m op).
Proof.
  intros Hm key refs. destruct op as [f s l r|f|s|]; cbn [perform].
  - unfold register. cbn [serverReferences].
    destruct (decide (refKey r l = key)) as [<-|Hne].
    + rewrite lookup_insert_eq. intros Heq. injection Heq as <-.
      destruct (serverReferences m !! refKey r l) as [refs0|] eqn:Hrefs0.
      * apply (Hm _ _ Hrefs0).
      * reflexivity.
    + rewrite lookup_insert_ne by done. apply Hm.
  - unfold unregister.
    destruct (connections m !! f) as [conn|]; [|apply Hm].
    destruct (serverReferences m !! _) as [refs0|] eqn:Hrefs0; [|apply Hm].
    cbv zeta. case_bool_decide; cbn [snd serverReferences].
    + intros Hl. apply lookup_delete_Some in Hl as [_ Hl]. by apply Hm.
    + destruct (decide (refKey (conn_rootPath conn) (conn_language conn) = key))
        as [<-|Hne].
      * rewrite lookup_insert_eq. intros Heq. injection Heq as <-.
        apply (Hm _ _ Hrefs0).
      * rewrite lookup_insert_ne by done. apply Hm.
  - unfold unregisterServer. cbn [serverReferences]. intros Hl.
    apply map_lookup_filter_Some in Hl as [Hl _]. by apply Hm.
  - cbn. by rewrite lookup_empty.
Qed.

Lemma setsNonEmpty_perform m op : setsNonEmpty m → setsNonEmpty (perform m op).
Proof.
  intros Hm. destruct op; cbn [perform].
  - by apply setsNonEmpty_register.
  - by apply setsNonEmpty_unregister.
  - by apply setsNonEmpty_unregisterServer.
  - apply setsNonEmpty_empty.
Qed.

(** Whatever sequence of [register], [unregister], [unregisterServer] and
    [clear] calls a fresh manager has gone through, every reference entry
    holds at least one file and sits under the key of its own root path and
    language; so a server found by [getConnectionByRoot] is referenced by
    some file and was indexed under the key asked for. *)
Theorem reachable_index_is_well_formed (ops : list Operation) :
  let m := performAll ops empty in
  setsNonEmpty m
  ∧ keysConsistent m
  ∧ ∀ rootPath language found,
      getConnectionByRoot rootPath language m = Some found →
      refKey (conn_rootPath found) (conn_language found)
      = refKey rootPath language
      ∧ (0 < getFileReferenceCount (conn_serverId found) m)%nat.
Proof.
  intros m.
  assert (Hinv : setsNonEmpty m ∧ keysConsistent m).
  { unfold m, performAll.
    assert (Hgen : ∀ m0, setsNonEmpty m0 ∧ keysConsistent m0 →
              setsNonEmpty (fold_left perform ops m0)
              ∧ keysConsistent (fold_left perform ops m0)).
    { induction ops as [|op ops IH]; intros m0 [H1 H2]; [done|].
      simpl. apply IH. split;
        [by apply setsNonEmpty_perform | by apply keysConsistent_perform]. }
    apply Hgen. split; [apply setsNonEmpty_empty|].
    intros key refs. cbn. by rewrite lookup_empty. }
  destruct Hinv as [Hne Hkeys]. split_and!; [done..|].
  intros rootPath language found. unfold getConnectionByRoot.
  destruct (serverReferences m !! refKey rootPath language) as [refs|] eqn:Hrefs;
    [|discriminate].
  intros Heq. injection Heq as <-. cbn [conn_rootPath conn_language conn_serverId].
  split; [symmetry; by apply Hkeys|].
  destruct m as [c sr]. cbn [serverReferences] in *.
  rewrite (getFileReferenceCount_delete _ _ refs sr c Hrefs).
  unfold weight. rewrite decide_True by done.
  assert (size (filePaths refs) ≠ 0); [|lia].
  intros Hz. apply size_empty_inv in Hz. apply leibniz_equiv in Hz.
  by apply (Hne _ _ Hrefs).
Qed.

End ConnectionManagerFacts.

(* ====================================================================== *)
(** * Facts about the LSP store *)
(* ====================================================================== *)

Module LspStoreFacts.

Import LspStore.



Lemma counts_eq (a b : DiagnosticCounts) :
  errors a = errors b → warnings a = warnings b → info a = info b →
  hints a = hints b → a = b.
Proof. destruct a, b; simpl; congruence. Qed.

Ltac counts :=
  apply counts_eq; unfold addCounts, updateCounts, zeroCounts; simpl; lia.

Lemma countOne_add c d : countOne c d = addCounts c (countOne zeroCounts d).
Proof.
  unfold countOne.
  repeat (destruct (String.eqb _ _); [counts|]). counts.
Qed.

Lemma fold_countOne l c :
  fold_left countOne l c = addCounts c (countDiagnostics l).
Proof.
  unfold countDiagnostics. revert c.
  induction l as [|d l IH]; intros c; simpl.
  - counts.
  - rewrite IH, (IH (countOne zeroCounts d)), (countOne_add c d).
    generalize (countOne zeroCounts d) (fold_left countOne l zeroCounts).
    intros x y. counts.
Qed.

Lemma countDiagnostics_app l1 l2 :
  countDiagnostics (l1 ++ l2)
  = addCounts (countDiagnostics l1) (countDiagnostics l2).
Proof.
  unfold countDiagnostics at 1. rewrite fold_left_app.
  fold (countDiagnostics l1). apply fold_countOne.
Qed.

(** The recount of a list of (file, diagnostics) entries does not depend on
    the order of the entries. *)
Lemma count_entries_Permutation
    (l1 l2 : list (string * list LspDiagnostic)) :
  l1 ≡ₚ l2 →
  countDiagnostics (concat (map snd l1)) = countDiagnostics (concat (map snd l2)).
Proof.
  induction 1 as [|x l1 l2 _ IH|x y l|l1 l2 l3 _ IH1 _ IH2]; simpl.
  - reflexivity.
  - rewrite !countDiagnostics_app, IH. reflexivity.
  - rewrite !countDiagnostics_app.
    generalize (countDiagnostics x.2) (countDiagnostics y.2)
      (countDiagnostics (concat (map snd l))).
    intros a b c. counts.
  - congruence.
Qed.

Lemma recount_empty : recount ∅ = zeroCounts.
Proof. unfold recount, allDiagnostics. by rewrite map_to_list_empty. Qed.

Lemma recount_insert_fresh (byFile : gmap string (list LspDiagnostic)) k v :
  byFile !! k = None →
  recount (<[k := v]> byFile) = addCounts (countDiagnostics v) (recount byFile).
Proof.
  intros Hk. unfold recount, allDiagnostics.
  rewrite (count_entries_Permutation _ _ (map_to_list_insert byFile k v Hk)).
  simpl. apply countDiagnostics_app.
Qed.

Lemma recount_delete (byFile : gmap string (list LspDiagnostic)) k old :
  byFile !! k = Some old →
  recount byFile = addCounts (countDiagnostics old) (recount (delete k byFile)).
Proof.
  intros Hk. rewrite <- (insert_delete_id byFile k old Hk) at 1.
  apply recount_insert_fresh, lookup_delete_eq.
Qed.

(** Replacing one file's diagnostics moves the recount by the difference of
    that file's counts: the delta update of the store is exact. *)
Lemma recount_insert (byFile : gmap string (list LspDiagnostic)) k v :
  recount (<[k := v]> byFile)
  = updateCounts (recount byFile)
      (countDiagnostics (default [] (byFile !! k))) (countDiagnostics v).
Proof.
  destruct (byFile !! k) as [old|] eqn:Hk; simpl.
  - rewrite <- insert_delete_eq.
    rewrite recount_insert_fresh by apply lookup_delete_eq.
    rewrite (recount_delete byFile k old Hk).
    generalize (countDiagnostics v) (countDiagnostics old)
      (recount (delete k byFile)).
    intros a b c. counts.
  - rewrite recount_insert_fresh by done.
    generalize (countDiagnostics v) (recount byFile). intros a b.
    change (countDiagnostics []) with zeroCounts. counts.
Qed.

(** ** What [countDiagnostics] counts *)

Lemma countDiagnostics_cons d l :
  countDiagnostics (d :: l)
  = addCounts (countOne zeroCounts d) (countDiagnostics l).
Proof. apply (countDiagnostics_app [d] l). Qed.

Lemma countDiagnostics_counts (diagnostics : list LspDiagnostic) :
  errors (countDiagnostics diagnostics) = withSeverity "error" diagnostics
  ∧ warnings (countDiagnostics diagnostics) = withSeverity "warning" diagnostics
  ∧ info (countDiagnostics diagnostics) = withSeverity "info" diagnostics
  ∧ hints (countDiagnostics diagnostics) = withSeverity "hint" diagnostics
  ∧ (errors (countDiagnostics diagnostics)
     + warnings (countDiagnostics diagnostics)
     + info (countDiagnostics diagnostics)
     + hints (countDiagnostics diagnostics)
     ≤ Z.of_nat (length diagnostics))%Z.
Proof.
  unfold withSeverity.
  induction diagnostics as [|d l (IHe & IHw & IHi & IHh & IHsum)]; [done|].
  rewrite countDiagnostics_cons. unfold addCounts, countOne. cbn [List.filter].
  destruct (lsp_severity d =? "error") eqn:He.
  { apply String.eqb_eq in He. rewrite He.
    cbn [String.eqb Ascii.eqb Bool.eqb andb errors warnings info hints zeroCounts
         length]. lia. }
  destruct (lsp_severity d =? "warning") eqn:Hw.
  { apply String.eqb_eq in Hw. rewrite Hw.
    cbn [String.eqb Ascii.eqb Bool.eqb andb errors warnings info hints zeroCounts
         length]. lia. }
  destruct (lsp_severity d =? "info") eqn:Hi.
  { apply String.eqb_eq in Hi. rewrite Hi.
    cbn [String.eqb Ascii.eqb Bool.eqb andb errors warnings info hints zeroCounts
         length]. lia. }
  destruct (lsp_severity d =? "hint") eqn:Hh.
  { cbn [errors warnings info hints zeroCounts length]. lia. }
  cbn [errors warnings info hints zeroCounts length]. lia.
Qed.

(** [countDiagnostics] returns, for each of the four severities, the number
    of diagnostics carrying it; diagnostics with any other severity are
    counted nowhere, so the four counts add up to at most the length. *)
Theorem countDiagnostics_by_severity (diagnostics : list LspDiagnostic) :
  errors (countDiagnostics diagnostics) = withSeverity "error" diagnostics
  ∧ warnings (countDiagnostics diagnostics) = withSeverity "warning" diagnostics
  ∧ info (countDiagnostics diagnostics) = withSeverity "info" diagnostics
  ∧ hints (countDiagnostics diagnostics) = withSeverity "hint" diagnostics
  ∧ (errors (countDiagnostics diagnostics)
     + warnings (countDiagnostics diagnostics)
     + info (countDiagnostics diagnostics)
     + hints (countDiagnostics diagnostics)
     ≤ Z.of_nat (length diagnostics))%Z.
Proof. apply countDiagnostics_counts. Qed.

Lemma countDiagnostics_nonneg (diagnostics : list LspDiagnostic) :
  (0 ≤ errors (countDiagnostics diagnostics))%Z
  ∧ (0 ≤ warnings (countDiagnostics diagnostics))%Z
  ∧ (0 ≤ info (countDiagnostics diagnostics))%Z
  ∧ (0 ≤ hints (countDiagnostics diagnostics))%Z.
Proof.
  destruct (countDiagnostics_counts diagnostics) as (-> & -> & -> & -> & _).
  unfold withSeverity. lia.
Qed.

(** ** Pending downloads *)

Lemma existsb_language_In language (l : list PendingDownload) :
  existsb (λ d, String.eqb (pd_language d) language) l = true
  ↔ language ∈ map pd_language l.
Proof.
  rewrite existsb_exists, list_elem_of_fmap. split.
  - intros (d & Hd & Heq). apply String.eqb_eq in Heq.
    exists d. split; [done|]. by apply list_elem_of_In.
  - intros (d & -> & Hd). exists d. split; [by apply list_elem_of_In|].
    apply String.eqb_refl.
Qed.

(** The list of pending downloads never holds two entries for one language,
    whatever sequence of [addPendingDownload], [removePendingDownload] and
    [clearPendingDownloads] calls it went through; adding a download whose
    language is already pending changes nothing, and after
    [removePendingDownload] the language is not pending. *)
Theorem pendingDownloads_one_per_language
    (actions : list DownloadAction) (state : LspState)
    (Hnodup : NoDup (map pd_language (pendingDownloads state))) :
  NoDup (map pd_language (pendingDownloads (fold_left dispatchDownload actions state)))
  ∧ (∀ download,
       pd_language download ∈ map pd_language (pendingDownloads state) →
       addPendingDownload download state = state)
  ∧ (∀ download,
       addPendingDownload download (addPendingDownload download state)
       = addPendingDownload download state)
  ∧ (∀ language,
       language ∉ map pd_language
                    (pendingDownloads (removePendingDownload language state))).
Proof.
  split_and!.
  - revert state Hnodup.
    induction actions as [|a actions IH]; intros state Hnodup; [done|].
    simpl. apply IH. destruct a as [download|language|]; cbn [dispatchDownload].
    + unfold addPendingDownload.
      destruct (existsb _ _) eqn:Hex; [done|]. cbn [pendingDownloads withPendingDownloads].
      rewrite map_app. apply NoDup_app. split_and!; [done| |apply NoDup_singleton].
      intros x Hx Hx'. cbn in Hx'. apply list_elem_of_singleton in Hx' as ->.
      apply existsb_language_In in Hx. congruence.
    + cbn [removePendingDownload pendingDownloads withPendingDownloads].
      induction (pendingDownloads state) as [|d l IHl]; [constructor|].
      cbn in Hnodup. apply NoDup_cons in Hnodup as [Hd Hl]. cbn [List.filter].
      destruct (negb _); [|by apply IHl].
      cbn. apply NoDup_cons. split; [|by apply IHl].
      intros Hin. apply Hd. apply list_elem_of_fmap in Hin as (d' & -> & Hd').
      apply list_elem_of_fmap. exists d'. split; [done|].
      apply list_elem_of_In in Hd'. apply filter_In in Hd' as [Hd' _].
      by apply list_elem_of_In.
    + cbn. constructor.
  - intros download Hin. unfold addPendingDownload.
    by rewrite (proj2 (existsb_language_In _ _) Hin).
  - intros download. unfold addPendingDownload.
    destruct (existsb _ (pendingDownloads state)) eqn:Hex.
    + by rewrite Hex.
    + cbn [pendingDownloads withPendingDownloads].
      rewrite existsb_app. cbn. rewrite String.eqb_refl, orb_true_r. reflexivity.
  - intros language Hin.
    cbn [removePendingDownload pendingDownloads withPendingDownloads] in Hin.
    apply list_elem_of_fmap in Hin as (d & -> & Hd).
    apply list_elem_of_In in Hd. apply filter_In in Hd as [_ Hd].
    rewrite String.eqb_refl in Hd. discriminate.
Qed.

Lemma pendingDownloads_one_per_language_witness :
  NoDup (map pd_language (pendingDownloads initialState))
  ∧ NoDup (map pd_language
             (pendingDownloads
                (fold_left dispatchDownload
                   [AddPending (mkPendingDownload "rust" "Rust" "rust-analyzer" None);
                    AddPending (mkPendingDownload "rust" "Rust" "rust-analyzer" None)]
                   initialState))).
Proof.
  split; [constructor|].
  apply (proj1 (pendingDownloads_one_per_language _ initialState (NoDup_nil_2 (A:=string)))).
Defined.

Section WithProtocol.

Context `{LspProtocol}.

Lemma consistent_initial : consistent initialState.
Proof. unfold consistent. simpl. by rewrite recount_empty. Qed.

Lemma consistent_setDiagnostics uri diagnostics st :
  consistent st → consistent (setDiagnostics uri diagnostics st).
Proof.
  unfold consistent, setDiagnostics. simpl. intros ->.
  symmetry. apply recount_insert.
Qed.

Lemma consistent_clearDiagnostics uri st :
  consistent st → consistent (clearDiagnostics uri st).
Proof.
  unfold consistent, clearDiagnostics. intros Hst.
  destruct (diagnosticsByFile st !! uriToFilePath uri) as [old|] eqn:Hold;
    [|done].
  simpl. rewrite Hst, (recount_delete _ _ _ Hold).
  generalize (countDiagnostics old)
    (recount (delete (uriToFilePath uri) (diagnosticsByFile st))).
  intros a b. counts.
Qed.

Lemma consistent_clearAllDiagnostics st : consistent (clearAllDiagnostics st).
Proof. unfold consistent. simpl. by rewrite recount_empty. Qed.

Lemma consistent_dispatch st a : consistent st → consistent (dispatch st a).
Proof.
  destruct a; simpl;
    auto using consistent_setDiagnostics, consistent_clearDiagnostics,
      consistent_clearAllDiagnostics.
Qed.

Lemma consistent_runActions actions st :
  consistent st → consistent (runActions actions st).
Proof.
  unfold runActions. revert st.
  induction actions as [|a actions IH]; intros st Hst; simpl; [done|].
  apply IH, consistent_dispatch, Hst.
Qed.


(** ** Setting and clearing one file's diagnostics *)

Lemma withDiagnostics_eq byFile byFile' c c' st0 byFile0 c0 :
  byFile = byFile' → c = c' →
  withDiagnostics byFile c (withDiagnostics byFile0 c0 st0)
  = withDiagnostics byFile' c' st0.
Proof. by intros -> ->. Qed.

Lemma updateCounts_twice c old n1 n2 :
  updateCounts (updateCounts c old n1) n1 n2 = updateCounts c old n2.
Proof. counts. Qed.

Lemma updateCounts_undo c n :
  updateCounts (updateCounts c zeroCounts n) n (mkCounts 0 0 0 0) = c.
Proof. destruct c. counts. Qed.

(** [setDiagnostics] stores for the file exactly the converted diagnostics
    that pass the severity switches, in order; everything stored is visible
    under the switches, the other files and the switches are untouched. *)
Theorem setDiagnostics_stores_visible
    (uri : string) (diagnostics : list Diagnostic) (st : LspState) :
  let st' := setDiagnostics uri diagnostics st in
  let filePath := uriToFilePath uri in
  getDiagnostics filePath st'
  = List.filter (severityVisible st) (imap (toLspDiagnostic filePath) diagnostics)
  ∧ (∀ d, d ∈ getDiagnostics filePath st' → severityVisible st' d = true)
  ∧ (length (getDiagnostics filePath st') ≤ length diagnostics)%nat
  ∧ (∀ other, other ≠ filePath →
       getDiagnostics other st' = getDiagnostics other st)
  ∧ (showErrors st', showWarnings st', showInfo st', showHints st')
    = (showErrors st, showWarnings st, showInfo st, showHints st).
Proof.
  intros st' filePath.
  assert (Hget : getDiagnostics filePath st'
                 = List.filter (severityVisible st)
                     (imap (toLspDiagnostic filePath) diagnostics)).
  { unfold st', getDiagnostics, setDiagnostics. cbn [diagnosticsByFile withDiagnostics].
    fold filePath. by rewrite lookup_insert_eq. }
  split_and!.
  - exact Hget.
  - intros d Hd. rewrite Hget in Hd. apply list_elem_of_In in Hd.
    apply filter_In in Hd as [_ Hd]. exact Hd.
  - rewrite Hget. etrans; [apply List.filter_length_le|]. by rewrite length_imap.
  - intros other Hne. unfold st', getDiagnostics, setDiagnostics.
    cbn [diagnosticsByFile withDiagnostics]. fold filePath.
    by rewrite lookup_insert_ne.
  - reflexivity.
Qed.

(** The latest [setDiagnostics] for a file wins: the store after two calls
    for the same URI is the store after the second alone, counts included. *)
Theorem setDiagnostics_latest_wins
    (uri : string) (first second : list Diagnostic) (st : LspState) :
  setDiagnostics uri second (setDiagnostics uri first st)
  = setDiagnostics uri second st.
Proof.
  unfold setDiagnostics.
  change (setDiagnostics uri first st) with
    (withDiagnostics
       (<[uriToFilePath uri :=
            List.filter (severityVisible st)
              (imap (toLspDiagnostic (uriToFilePath uri)) first)]>
          (diagnosticsByFile st))
       (updateCounts (diagnosticsCounts st)
          (countDiagnostics (default [] (diagnosticsByFile st !! uriToFilePath uri)))
          (countDiagnostics
             (List.filter (severityVisible st)
                (imap (toLspDiagnostic (uriToFilePath uri)) first))))
       st).
  cbv zeta. cbn [diagnosticsByFile diagnosticsCounts withDiagnostics].
  rewrite lookup_insert_eq, insert_insert_eq. cbn [default].
  apply withDiagnostics_eq; [reflexivity|].
  apply updateCounts_twice.
Qed.

(** Clearing the diagnostics of a file that had none before they were set
    gives back the store as it was. *)
Theorem setDiagnostics_then_clearDiagnostics
    (uri : string) (diagnostics : list Diagnostic) (st : LspState)
    (Hnone : diagnosticsByFile st !! uriToFilePath uri = None) :
  clearDiagnostics uri (setDiagnostics uri diagnostics st) = st.
Proof.
  unfold clearDiagnostics, setDiagnostics.
  cbv zeta. cbn [diagnosticsByFile diagnosticsCounts withDiagnostics].
  rewrite lookup_insert_eq, Hnone. cbn [default].
  rewrite delete_insert_eq, delete_id by done.
  destruct st as [e sd se sw si sh byFile c pd].
  unfold withDiagnostics. cbn [enabled showDiagnostics showErrors showWarnings
    showInfo showHints diagnosticsByFile diagnosticsCounts pendingDownloads].
  f_equal. change (countDiagnostics []) with zeroCounts.
  apply updateCounts_undo.
Qed.


(** In every state the diagnostics actions reach, no count is negative and
    the four counts together do not exceed the number of diagnostics
    stored. *)
Theorem diagnosticsCounts_bounds (actions : list Action) :
  let st := runActions actions initialState in
  (0 ≤ errors (diagnosticsCounts st))%Z
  ∧ (0 ≤ warnings (diagnosticsCounts st))%Z
  ∧ (0 ≤ info (diagnosticsCounts st))%Z
  ∧ (0 ≤ hints (diagnosticsCounts st))%Z
  ∧ (errors (diagnosticsCounts st) + warnings (diagnosticsCounts st)
     + info (diagnosticsCounts st) + hints (diagnosticsCounts st)
     ≤ Z.of_nat (length (allDiagnostics (diagnosticsByFile st))))%Z.
Proof.
  intros st.
  assert (Hst : consistent st) by apply consistent_runActions, consistent_initial.
  rewrite Hst. unfold recount.
  destruct (countDiagnostics_nonneg (allDiagnostics (diagnosticsByFile st)))
    as (? & ? & ? & ?).
  destruct (countDiagnostics_counts (allDiagnostics (diagnosticsByFile st)))
    as (_ & _ & _ & _ & ?).
  done.
Qed.

End WithProtocol.

Lemma setDiagnostics_then_clearDiagnostics_witness :
  @clearDiagnostics Samples.sampleProtocol "file:///repo/a.ts"
    (@setDiagnostics Samples.sampleProtocol "file:///repo/a.ts"
       Samples.sampleDiagnostics initialState)
  = initialState.
Proof.
  apply (@setDiagnostics_then_clearDiagnostics Samples.sampleProtocol).
  apply lookup_empty.
Defined.

End LspStoreFacts.

(* ====================================================================== *)
(** * Facts about the [useLsp] hook *)
(* ====================================================================== *)

Module UseLspFacts.

Import ConnectionManager LspStore UseLsp Samples.

Lemma truthy_Some s : s ≠ "" → truthy (Some s) = true.
Proof.
  intros Hs. unfold truthy.
  destruct (String.eqb_spec s ""); [congruence | reflexivity].
Qed.



Lemma decrements_app l1 l2 :
  decrements (l1 ++ l2) = (decrements l1 ++ decrements l2)%list.
Proof. apply List.filter_app. Qed.

(** ** [performCleanup] *)


Lemma performCleanup_decrements w :
  decrements (calls (performCleanup w))
  = (decrements (calls w) ++ released w)%list.
Proof.
  unfold performCleanup, released.
  destruct (refs w) as [sid fp lang root isOpen flag] eqn:Hrefs. simpl.
  destruct (truthy sid), isOpen, (truthy fp), flag; simpl;
    rewrite ?Hrefs; simpl; rewrite ?decrements_app; simpl;
    rewrite ?app_nil_r; reflexivity.
Qed.

Lemma performCleanup_refs w :
  serverIdRef (refs (performCleanup w)) = None
  ∧ filePathRef (refs (performCleanup w)) = None
  ∧ hasIncrementedRefRef (refs (performCleanup w))
    = hasIncrementedRefRef (refs w) && negb (truthy (serverIdRef (refs w))).
Proof.
  unfold performCleanup.
  destruct (refs w) as [sid fp lang root isOpen flag] eqn:Hrefs. simpl.
  destruct (truthy sid), isOpen, (truthy fp), flag; simpl;
    rewrite ?Hrefs; simpl; auto.
Qed.

Lemma performCleanup_hook w : hook (performCleanup w) = hook w.
Proof.
  unfold performCleanup.
  destruct (refs w) as [sid fp lang root isOpen flag] eqn:Hrefs. simpl.
  destruct (truthy sid), isOpen, (truthy fp), flag; simpl; reflexivity.
Qed.


(** ** Suspended and settled activations *)

Lemma lookup_setActivation i a a0 w :
  activations w !! i = Some a0 →
  activations (setActivation i a w) !! i = Some a.
Proof.
  intros Hi. unfold setActivation. simpl.
  apply list_lookup_insert_eq. by eapply lookup_lt_Some.
Qed.

Lemma lookup_settle i a a0 w :
  activations w !! i = Some a0 →
  activations (settle i a w) !! i
  = Some (mkActivation (act_language a) (act_workspaceRoot a) (act_filePath a)
            (isMounted a) Settled).
Proof. apply lookup_setActivation. Qed.

(** Once an activation is settled its continuations have nothing to run. *)
Lemma settled_is_final `{LspServers} i a w :
  activations w !! i = Some a → pc a = Settled →
  (∀ status incrementResult, statusFulfilled i status incrementResult w = w)
  ∧ (∀ reason, statusRejected i reason w = w)
  ∧ (∀ sid, startFulfilled i sid w = w)
  ∧ (∀ reason, startRejected i reason w = w).
Proof.
  intros Hi Hpc.
  unfold statusFulfilled, statusRejected, startFulfilled, startRejected.
  rewrite Hi, Hpc. auto.
Qed.

(** ** The server is not available *)

(** C7: when [getServerStatus] answers "not available", the activation
    settles without [startServer] being called, then or later.  If the
    server cannot be downloaded no call at all is issued and, the view being
    still mounted, the error message names the command to install.  If it
    can be downloaded the only call is [addPendingDownload], which records
    the pending download in the store (no download is started), and, the
    view being still mounted, the error message asks for the installation.
    In both cases loading ends and the manager and the refs are untouched. *)
Theorem server_unavailable_never_started `{LspServers}
    (i : nat) (a : Activation) (status : ServerStatus) (incrementResult : bool)
    (w : World)
    (Hact : activations w !! i = Some a)
    (Hpc : pc a = AwaitingStatus)
    (Hunavailable : available status = false) :
  let w' := statusFulfilled i status incrementResult w in
  let language := act_language a in
  let pendingDownload :=
    mkPendingDownload language (getLanguageDisplayName language)
      (config_name_or (getServerConfig language) language) (downloadUrl status) in
  count isStartServer (calls w') = count isStartServer (calls w)
  ∧ (∀ sid, startFulfilled i sid w' = w')
  ∧ (∀ status' incrementResult', statusFulfilled i status' incrementResult' w' = w')
  ∧ manager w' = manager w
  ∧ refs w' = refs w
  ∧ (canDownload status = false →
       calls w' = calls w ∧ store w' = store w
       ∧ (isMounted a = true →
            error (hook w') = Some (notAvailableMessage language)
            ∧ isLoading (hook w') = false))
  ∧ (canDownload status = true →
       calls w' = (calls w ++ [AddPendingDownload pendingDownload])%list
       ∧ store w' = addPendingDownload pendingDownload (store w)
       ∧ (isMounted a = true →
            error (hook w') = Some (notInstalledMessage language)
            ∧ isLoading (hook w') = false)).
Proof.
  intros w' language pendingDownload.
  assert (Hw' : w' =
    if canDownload status then
      settle i a (finallyBlock a
        (let w0 := withStore (addPendingDownload pendingDownload (store w))
                     (issue (AddPendingDownload pendingDownload) w) in
         if isMounted a
         then setIsLoading false (setError (Some (notInstalledMessage language)) w0)
         else w0))
    else
      settle i a (finallyBlock a
        (if isMounted a
         then setIsLoading false (setError (Some (notAvailableMessage language)) w)
         else w))).
  { unfold w', statusFulfilled. rewrite Hact, Hpc, Hunavailable. reflexivity. }
  assert (Hsettled : ∃ a', activations w' !! i = Some a' ∧ pc a' = Settled).
  { exists (mkActivation (act_language a) (act_workspaceRoot a) (act_filePath a)
              (isMounted a) Settled).
    split; [|reflexivity]. rewrite Hw'.
    destruct (canDownload status); apply lookup_settle with (a0 := a);
      unfold finallyBlock; destruct (isMounted a); exact Hact. }
  destruct Hsettled as (a' & Ha' & Hpc').
  destruct (settled_is_final i a' w' Ha' Hpc') as (Hs1 & _ & Hs2 & _).
  split_and!; [ | exact Hs2 | exact Hs1 | | | | ].
  - rewrite Hw'. unfold count, finallyBlock.
    destruct (canDownload status), (isMounted a); simpl;
      rewrite ?List.filter_app; simpl; rewrite ?app_nil_r; reflexivity.
  - rewrite Hw'. unfold finallyBlock.
    destruct (canDownload status), (isMounted a); reflexivity.
  - rewrite Hw'. unfold finallyBlock.
    destruct (canDownload status), (isMounted a); reflexivity.
  - intros Hno. rewrite Hw', Hno. unfold finallyBlock.
    destruct (isMounted a); simpl; split_and!; try reflexivity; try discriminate.
    intros _. split; reflexivity.
  - intros Hyes. rewrite Hw', Hyes. unfold finallyBlock.
    destruct (isMounted a); simpl; split_and!; try reflexivity; try discriminate.
    intros _. split; reflexivity.
Qed.


Lemma server_unavailable_never_started_witness :
  let w' :=
    @statusFulfilled sampleServers 0 (mkServerStatus false false None) false
      rustActivation in
  count isStartServer (calls w') = 0
  ∧ error (hook w')
    = Some "LSP server not available. Please install: rust-analyzer".
Proof.
  pose proof (@server_unavailable_never_started sampleServers 0
                (mkActivation "rust" "/repo" "/repo/src/main.rs" true AwaitingStatus)
                (mkServerStatus false false None) false rustActivation
                eq_refl eq_refl eq_refl) as H.
  cbv zeta in H. destruct H as (Hstart & _ & _ & _ & _ & Hno & _).
  split; [exact Hstart|]. exact (proj1 (proj2 (proj2 (Hno eq_refl)) eq_refl)).
Defined.

(** ** An existing connection: reuse, or the lost race *)

Lemma unregisterServer_purges rootPath language existing m :
  getConnectionByRoot rootPath language m = Some existing →
  getConnectionByRoot rootPath language
    (unregisterServer (conn_serverId existing) m) = None.
Proof.
  unfold getConnectionByRoot, unregisterServer. cbn [serverReferences].
  destruct (serverReferences m !! refKey rootPath language) as [refs|] eqn:Hrefs;
    [|discriminate].
  intros [= <-]. cbn [conn_serverId].
  rewrite (proj2 (map_lookup_filter_None _ _ _)); [reflexivity|].
  right. intros x Hx. rewrite Hrefs in Hx. injection Hx as <-. simpl. tauto.
Qed.

(** C2: [getConnectionByRoot] finds a connection for the activation's
    (workspaceRoot, language).  If [incrementRefCount] answers [true] the
    view reuses that server: [startServer] is not called, then or later,
    and a mounted view records the server id and registers its file under
    it.  If it answers [false] the view calls [unregisterServer] for the
    stale id, which purges the index entry, and then [startServer] for the
    same language and root; the view's error state is not touched, neither
    then nor when the fresh server id arrives, which a mounted view records
    and registers. *)
Theorem existing_connection_reused_or_restarted `{LspServers}
    (i : nat) (a : Activation) (status : ServerStatus) (incrementResult : bool)
    (existing : LspConnection) (w : World)
    (Hact : activations w !! i = Some a)
    (Hpc : pc a = AwaitingStatus)
    (Havailable : available status = true)
    (Hexisting :
       getConnectionByRoot (act_workspaceRoot a) (act_language a) (manager w)
       = Some existing)
    (Hsid : conn_serverId existing ≠ "") :
  let sid := conn_serverId existing in
  let language := act_language a in
  let root := act_workspaceRoot a in
  let w' := statusFulfilled i status incrementResult w in
  (incrementResult = true →
     count isStartServer (calls w') = count isStartServer (calls w)
     ∧ (∀ sid', startFulfilled i sid' w' = w')
     ∧ hasIncrementedRefRef (refs w') = true
     ∧ error (hook w') = error (hook w)
     ∧ (isMounted a = true →
          calls w'
          = (calls w ++ [IncrementRefCount sid true;
                         ManagerRegister (act_filePath a) sid language root])%list
          ∧ serverIdRef (refs w') = Some sid
          ∧ serverId (hook w') = Some sid
          ∧ isConnected (hook w') = true
          ∧ manager w' = register (act_filePath a) sid language root (manager w))
     ∧ (isMounted a = false →
          calls w' = (calls w ++ [IncrementRefCount sid true])%list
          ∧ manager w' = manager w))
  ∧ (incrementResult = false →
     calls w'
     = (calls w ++ [IncrementRefCount sid false; ManagerUnregisterServer sid;
                    StartServer language root])%list
     ∧ manager w' = unregisterServer sid (manager w)
     ∧ getConnectionByRoot root language (manager w') = None
     ∧ hook w' = hook w
     ∧ ∀ sid',
         let w'' := startFulfilled i sid' w' in
         error (hook w'') = error (hook w)
         ∧ hasIncrementedRefRef (refs w'') = true
         ∧ count isStartServer (calls w'') = S (count isStartServer (calls w))
         ∧ (isMounted a = true →
              serverIdRef (refs w'') = Some sid'
              ∧ serverId (hook w'') = Some sid'
              ∧ isConnected (hook w'') = true
              ∧ connections (manager w'') !! act_filePath a
                = Some (mkLspConnection sid' language root))).
Proof.
  intros sid language root w'. split; intros ->.
  - assert (Hw' : w' =
      settle i a (finallyBlock a (connect a sid
        (setHasIncrementedRefRef true (issue (IncrementRefCount sid true) w))))).
    { unfold w', statusFulfilled. rewrite Hact, Hpc, Havailable. cbn [negb].
      rewrite Hexisting. cbv zeta. fold sid. rewrite (truthy_Some sid Hsid).
      reflexivity. }
    assert (Ha' : activations w' !! i
                  = Some (mkActivation (act_language a) (act_workspaceRoot a)
                            (act_filePath a) (isMounted a) Settled)).
    { rewrite Hw'. apply lookup_settle with (a0 := a).
      unfold finallyBlock, connect. destruct (isMounted a); exact Hact. }
    destruct (settled_is_final i _ w' Ha' eq_refl) as (_ & _ & Hs2 & _).
    split_and!; [ | exact Hs2 | | | | ].
    + rewrite Hw'. unfold count, finallyBlock, connect.
      destruct (isMounted a); simpl;
        rewrite ?List.filter_app; simpl; rewrite ?app_nil_r; reflexivity.
    + rewrite Hw'. unfold finallyBlock, connect. destruct (isMounted a); reflexivity.
    + rewrite Hw'. unfold finallyBlock, connect. destruct (isMounted a); reflexivity.
    + intros Hm. rewrite Hw'. unfold finallyBlock, connect. rewrite Hm. simpl.
      rewrite <- app_assoc. split_and!; reflexivity.
    + intros Hm. rewrite Hw'. unfold finallyBlock, connect. rewrite Hm. simpl.
      split; reflexivity.
  - set (w1 := withManager (unregisterServer sid (manager w))
                 (issue (ManagerUnregisterServer sid)
                    (issue (IncrementRefCount sid false) w))).
    assert (Hw' : w' =
      setActivation i
        (mkActivation language root (act_filePath a) (isMounted a) AwaitingStart)
        (issue (StartServer language root) w1)).
    { unfold w', statusFulfilled. rewrite Hact, Hpc, Havailable. cbn [negb].
      rewrite Hexisting. reflexivity. }
    assert (Ha' : activations w' !! i
                  = Some (mkActivation language root (act_filePath a)
                            (isMounted a) AwaitingStart)).
    { rewrite Hw'. apply lookup_setActivation with (a0 := a). exact Hact. }
    split_and!.
    + rewrite Hw'. simpl. rewrite <- !app_assoc. reflexivity.
    + rewrite Hw'. reflexivity.
    + rewrite Hw'. cbn [manager setActivation withActivations issue w1 withManager].
      by apply unregisterServer_purges.
    + rewrite Hw'. reflexivity.
    + intros sid' w''.
      assert (Hw'' : w'' =
        settle i (mkActivation language root (act_filePath a) (isMounted a)
                    AwaitingStart)
          (finallyBlock (mkActivation language root (act_filePath a)
                           (isMounted a) AwaitingStart)
             (connect (mkActivation language root (act_filePath a)
                         (isMounted a) AwaitingStart) sid'
                (setHasIncrementedRefRef true w')))).
      { unfold w'', startFulfilled. rewrite Ha'. reflexivity. }
      rewrite Hw''. unfold finallyBlock, connect. cbn [isMounted].
      destruct (isMounted a); rewrite Hw'; simpl.
      * split_and!; try reflexivity.
        -- unfold count. rewrite !List.filter_app. simpl.
           rewrite !length_app. simpl. lia.
        -- intros _. split_and!; try reflexivity. apply lookup_insert_eq.
      * split_and!; try reflexivity; try discriminate.
        unfold count. rewrite !List.filter_app. simpl.
        rewrite !length_app. simpl. lia.
Qed.


Lemma existing_connection_reused_or_restarted_witness :
  let w' :=
    @statusFulfilled sampleServers 0 (mkServerStatus true false None) false viewD in
  let w'' := startFulfilled 0 "srv-6" w' in
  getConnectionByRoot "/repo" "typescript" (manager viewD)
  = Some (mkLspConnection "srv-5" "typescript" "/repo")
  ∧ calls w'
    = (calls viewD ++ [IncrementRefCount "srv-5" false;
                       ManagerUnregisterServer "srv-5";
                       StartServer "typescript" "/repo"])%list
  ∧ error (hook w'') = error (hook viewD)
  ∧ serverIdRef (refs w'') = Some "srv-6".
Proof.
  assert (Hex : getConnectionByRoot "/repo" "typescript" (manager viewD)
                = Some (mkLspConnection "srv-5" "typescript" "/repo"))
    by (vm_compute; reflexivity).
  assert (Hsid : conn_serverId (mkLspConnection "srv-5" "typescript" "/repo") ≠ "")
    by discriminate.
  pose proof (@existing_connection_reused_or_restarted sampleServers 0
                (mkActivation "typescript" "/repo" "/repo/d.ts" true AwaitingStatus)
                (mkServerStatus true false None) false
                (mkLspConnection "srv-5" "typescript" "/repo") viewD
                eq_refl eq_refl eq_refl Hex Hsid) as H.
  cbv zeta in H. destruct H as (_ & H). specialize (H eq_refl).
  destruct H as (Hcalls & _ & _ & _ & Hlater).
  destruct (Hlater "srv-6") as (Herr & _ & _ & Hmounted).
  intros w' w''. split_and!; [exact Hex | exact Hcalls | exact Herr | ].
  exact (proj1 (Hmounted eq_refl)).
Defined.

(** ** Deactivation and the reference flag *)

(** With the flag set and a server recorded, cleanup releases that server
    once and clears the flag; a second cleanup releases nothing. *)
Lemma performCleanup_releases_once w sid :
  hasIncrementedRefRef (refs w) = true →
  serverIdRef (refs w) = Some sid → sid ≠ "" →
  decrements (calls (performCleanup w))
  = (decrements (calls w) ++ [DecrementRefCount sid])%list
  ∧ hasIncrementedRefRef (refs (performCleanup w)) = false
  ∧ decrements (calls (performCleanup (performCleanup w)))
    = decrements (calls (performCleanup w)).
Proof.
  intros Hflag Hsid Hne.
  destruct (performCleanup_refs w) as (Hs & _ & Hf).
  split_and!.
  - rewrite performCleanup_decrements. unfold released.
    rewrite Hflag, Hsid, (truthy_Some sid Hne). reflexivity.
  - rewrite Hf, Hflag, Hsid, (truthy_Some sid Hne). reflexivity.
  - rewrite (performCleanup_decrements (performCleanup w)).
    unfold released. rewrite Hs. cbn [truthy]. rewrite andb_false_r.
    apply app_nil_r.
Qed.


(** With the flag set but no server recorded, cleanup releases nothing and
    the flag stays set, however often cleanup runs. *)
Lemma performCleanup_flag_without_server w n :
  hasIncrementedRefRef (refs w) = true →
  truthy (serverIdRef (refs w)) = false →
  decrements (calls (Nat.iter n performCleanup w)) = decrements (calls w)
  ∧ hasIncrementedRefRef (refs (Nat.iter n performCleanup w)) = true
  ∧ truthy (serverIdRef (refs (Nat.iter n performCleanup w))) = false.
Proof.
  intros Hflag Hsid. induction n as [|n (IHd & IHf & IHs)]; [done|].
  rewrite !Nat.iter_succ.
  destruct (performCleanup_refs (Nat.iter n performCleanup w))
    as (Hs & _ & Hf).
  rewrite performCleanup_decrements. unfold released.
  rewrite Hf, Hs, IHf, IHs. cbn [andb negb truthy]. rewrite app_nil_r. done.
Qed.

(** C1 fails on this lifecycle: the view is deactivated while
    [startServer] is pending, [startServer] then answers [srv-1] (the
    registry counts one reference for this view and the flag is set), and the
    view is later rendered disabled, which runs the cleanup again.  No
    [decrementRefCount] is ever issued for [srv-1], the flag is still set,
    and no further cleanup will release it. *)
Theorem reference_acquired_after_cleanup_is_never_released :
  let w := @run sampleServers deactivatedInFlightThenDisabled initialWorld in
  calls w = [GetServerStatus "typescript"; StartServer "typescript" "/repo"]
  ∧ hasIncrementedRefRef (refs w) = true
  ∧ serverIdRef (refs w) = None
  ∧ ∀ n, decrements (calls (Nat.iter n performCleanup w)) = [].
Proof.
  intros w.
  assert (Hcalls : calls w = [GetServerStatus "typescript";
                              StartServer "typescript" "/repo"])
    by (vm_compute; reflexivity).
  assert (Hflag : hasIncrementedRefRef (refs w) = true) by (vm_compute; reflexivity).
  assert (Hsid : serverIdRef (refs w) = None) by (vm_compute; reflexivity).
  split_and!; [done..|]. intros n.
  destruct (performCleanup_flag_without_server w n Hflag) as (Hd & _).
  { by rewrite Hsid. }
  rewrite Hd, Hcalls. reflexivity.
Qed.

(** The same file activated to completion and then deactivated: the one
    reference is released once. *)
Lemma completed_activation_is_released :
  let w := @run sampleServers activatedThenDeactivated initialWorld in
  decrements (calls w) = [DecrementRefCount "srv-1"]
  ∧ hasIncrementedRefRef (refs w) = false.
Proof. vm_compute. done. Qed.


(** ** Deactivation while the activation is in flight *)

Lemma effectCleanup_unfold i a w :
  activations w !! i = Some a →
  effectCleanup i w
  = performCleanup
      (setActivation i
         (mkActivation (act_language a) (act_workspaceRoot a) (act_filePath a)
            false (pc a)) w).
Proof. intros Hact. unfold effectCleanup. by rewrite Hact. Qed.




(** ** Diagnostics whose language does not match *)

(** C8, the part that fails: a diagnostics event for the file on display
    arrives while [languageRef] holds another language.  No marker is set,
    but the event is not discarded: the store has recorded its three
    diagnostics and counts them. *)
Lemma mismatched_diagnostics_reach_the_store :
  let w' :=
    @onDiagnostics sampleProtocol sampleServers fullEditor (Some "/repo/a.ts")
      "file:///repo/a.ts" sampleDiagnostics staleLanguageView in
  @getLanguageIdForPath sampleServers (uriToPath "file:///repo/a.ts")
  = Some "typescript"
  ∧ languageRef (refs staleLanguageView) = Some "python"
  ∧ calls w' = []
  ∧ length (getDiagnostics "/repo/a.ts" (store w')) = 3
  ∧ diagnosticsCounts (store w') = mkCounts 2 1 0 0
  ∧ w' ≠ staleLanguageView.
Proof.
  intros w'.
  assert (Hc : diagnosticsCounts (store w') = mkCounts 2 1 0 0)
    by (vm_compute; reflexivity).
  split_and!; try (vm_compute; reflexivity).
  intros Heq. rewrite Heq in Hc. vm_compute in Hc. discriminate.
Qed.

(** C8, as amended: when the language inferred from the event's file path
    and the language of the view's current connection are both defined and
    differ, the handler issues no call at all, so no marker of the event
    reaches the editor, and it leaves the refs, the hook state and the
    manager alone; what it does is hand the event to the store's
    [setDiagnostics], which runs before any check. *)
Theorem mismatched_diagnostics_set_no_markers `{LspProtocol} `{LspServers}
    (env : EditorEnv) (filePath : option string) (uri : string)
    (diagnostics : list Diagnostic) (diagnosticLang currentLang : string)
    (w : World)
    (Hdiagnostic : getLanguageIdForPath (uriToPath uri) = Some diagnosticLang)
    (Hcurrent : languageRef (refs w) = Some currentLang)
    (Hd : diagnosticLang ≠ "") (Hc : currentLang ≠ "")
    (Hdiffer : diagnosticLang ≠ currentLang) :
  let w' := onDiagnostics env filePath uri diagnostics w in
  calls w' = calls w
  ∧ count isSetModelMarkers (calls w') = count isSetModelMarkers (calls w)
  ∧ store w' = setDiagnostics uri diagnostics (store w)
  ∧ refs w' = refs w ∧ hook w' = hook w ∧ manager w' = manager w.
Proof.
  intros w'.
  assert (Hw' : w' = withStore (setDiagnostics uri diagnostics (store w)) w).
  { unfold w', onDiagnostics. cbv zeta.
    destruct (hasEditor env && truthy filePath); [|reflexivity].
    destruct (negb (showDiagnostics _)); [reflexivity|].
    destruct (negb (hasModel env)); [reflexivity|].
    destruct (negb (hasMonaco env)); [reflexivity|].
    destruct (negb (String.eqb (uriToPath uri) (str filePath))); [reflexivity|].
    rewrite Hdiagnostic. cbn [refs withStore]. rewrite Hcurrent.
    rewrite (truthy_Some _ Hd), (truthy_Some _ Hc).
    change (str (Some diagnosticLang)) with diagnosticLang.
    change (str (Some currentLang)) with currentLang.
    destruct (String.eqb_spec diagnosticLang currentLang); [contradiction|].
    reflexivity. }
  rewrite Hw'. split_and!; reflexivity.
Qed.

Lemma mismatched_diagnostics_set_no_markers_witness :
  calls (@onDiagnostics sampleProtocol sampleServers fullEditor
           (Some "/repo/a.ts") "file:///repo/a.ts" sampleDiagnostics
           staleLanguageView)
  = calls staleLanguageView.
Proof.
  assert (Hd : @getLanguageIdForPath sampleServers (uriToPath "file:///repo/a.ts")
               = Some "typescript") by (vm_compute; reflexivity).
  assert (H1 : "typescript" ≠ "") by discriminate.
  assert (H2 : "python" ≠ "") by discriminate.
  assert (H3 : "typescript" ≠ "python") by discriminate.
  exact (proj1 (@mismatched_diagnostics_set_no_markers sampleProtocol
                  sampleServers fullEditor (Some "/repo/a.ts")
                  "file:///repo/a.ts" sampleDiagnostics "typescript" "python"
                  staleLanguageView Hd eq_refl H1 H2 H3)).
Defined.

(** ** Opening a document twice *)






(** ** More on [performCleanup] *)

(** [performCleanup] sends, in this order, [closeDocument] if the view is
    connected with its document open, [unregister] if a file path is
    tracked, and [decrementRefCount] if the flag is set and a server is
    recorded; nothing else.  It unregisters the tracked path from the
    manager and leaves the manager alone when no path is tracked. *)
Lemma performCleanup_calls (w : World) :
  calls (performCleanup w)
  = (calls w ++ closed w ++ unregistered w ++ released w)%list
  ∧ manager (performCleanup w)
    = (if truthy (filePathRef (refs w))
       then (unregister (str (filePathRef (refs w))) (manager w)).2
       else manager w)
  ∧ isDocumentOpenRef (refs (performCleanup w))
    = isDocumentOpenRef (refs w)
      && negb (truthy (serverIdRef (refs w)) && truthy (filePathRef (refs w)))
  ∧ store (performCleanup w) = store w.
Proof.
  unfold performCleanup, closed, unregistered, released.
  destruct w as [[sid fp lang root isOpen flag] h m st cs acts].
  cbn [refs serverIdRef filePathRef isDocumentOpenRef hasIncrementedRefRef].
  destruct (truthy sid), isOpen, (truthy fp), flag; cbn;
    rewrite <- ?app_assoc, ?app_nil_r; done.
Qed.

Lemma performCleanup_twice (w : World) :
  performCleanup (performCleanup w) = performCleanup w.
Proof.
  unfold performCleanup.
  destruct w as [[sid fp lang root isOpen flag] h m st cs acts].
  cbn [refs serverIdRef filePathRef isDocumentOpenRef hasIncrementedRefRef].
  destruct (truthy sid), isOpen, (truthy fp), flag; reflexivity.
Qed.

(** Running the cleanup twice is running it once: the second run sends
    nothing and changes nothing, so a reference is not released twice and
    a document is not closed twice. *)
Theorem performCleanup_idempotent (w : World) :
  performCleanup (performCleanup w) = performCleanup w
  ∧ calls (performCleanup (performCleanup w)) = calls (performCleanup w).
Proof. by rewrite performCleanup_twice. Qed.

(** ** A completed activation is released once *)

(** When [startServer] is fulfilled for a mounted view and the view is
    then deactivated, exactly one [decrementRefCount] is issued, for the
    server that was started; the flag is cleared, the refs are reset, and a
    further cleanup issues nothing. *)
Theorem started_server_released_once
    (i : nat) (a : Activation) (sid : string) (w : World)
    (Hact : activations w !! i = Some a)
    (Hpc : pc a = AwaitingStart)
    (Hmounted : isMounted a = true)
    (Hsid : sid ≠ "") :
  let w1 := startFulfilled i sid w in
  let w2 := effectCleanup i w1 in
  serverIdRef (refs w1) = Some sid
  ∧ getConnection (act_filePath a) (manager w1)
    = Some (mkLspConnection sid (act_language a) (act_workspaceRoot a))
  ∧ decrements (calls w2)
    = (decrements (calls w) ++ [DecrementRefCount sid])%list
  ∧ hasIncrementedRefRef (refs w2) = false
  ∧ serverIdRef (refs w2) = None
  ∧ performCleanup w2 = w2.
Proof.
  intros w1 w2.
  assert (Hw1 : w1 = settle i a (finallyBlock a (connect a sid
                       (setHasIncrementedRefRef true w)))).
  { unfold w1, startFulfilled. by rewrite Hact, Hpc. }
  assert (Ha1 : activations w1 !! i
                = Some (mkActivation (act_language a) (act_workspaceRoot a)
                          (act_filePath a) (isMounted a) Settled)).
  { rewrite Hw1. apply lookup_settle with (a0 := a).
    unfold finallyBlock, connect. rewrite Hmounted. exact Hact. }
  assert (Hsid1 : serverIdRef (refs w1) = Some sid).
  { rewrite Hw1. unfold finallyBlock, connect. rewrite Hmounted. reflexivity. }
  assert (Hflag1 : hasIncrementedRefRef (refs w1) = true).
  { rewrite Hw1. unfold finallyBlock, connect. rewrite Hmounted. reflexivity. }
  assert (Hdec1 : decrements (calls w1) = decrements (calls w)).
  { rewrite Hw1. unfold finallyBlock, connect. rewrite Hmounted. cbn.
    rewrite decrements_app. cbn. apply app_nil_r. }
  assert (Hw2 : w2 = performCleanup (setActivation i
                 (mkActivation (act_language a) (act_workspaceRoot a)
                    (act_filePath a) false Settled) w1)).
  { unfold w2. by rewrite (effectCleanup_unfold i _ w1 Ha1). }
  destruct (performCleanup_releases_once
              (setActivation i
                 (mkActivation (act_language a) (act_workspaceRoot a)
                    (act_filePath a) false Settled) w1) sid Hflag1 Hsid1 Hsid)
    as (Hd & Hf & _).
  split_and!.
  - exact Hsid1.
  - rewrite Hw1. unfold finallyBlock, connect, getConnection. rewrite Hmounted.
    cbn. apply lookup_insert_eq.
  - rewrite Hw2, Hd. cbn [calls setActivation withActivations]. by rewrite Hdec1.
  - rewrite Hw2. exact Hf.
  - rewrite Hw2. apply performCleanup_refs.
  - rewrite Hw2. apply performCleanup_twice.
Qed.

Lemma started_server_released_once_witness :
  let w := @run sampleServers (take 2 deactivatedInFlight) initialWorld in
  decrements (calls (effectCleanup 0 (startFulfilled 0 "srv-1" w)))
  = (decrements (calls w) ++ [DecrementRefCount "srv-1"])%list.
Proof.
  intros w.
  assert (Hact : activations w !! 0
                 = Some (mkActivation "typescript" "/repo" "/repo/a.ts" true
                           AwaitingStart))
    by (vm_compute; reflexivity).
  assert (Hsid : "srv-1" ≠ "") by discriminate.
  pose proof (started_server_released_once 0 _ "srv-1" w Hact eq_refl eq_refl Hsid)
    as H.
  cbv zeta in H. destruct H as (_ & _ & H & _). exact H.
Defined.

(** ** A failed activation *)

(** When [getServerStatus] or [startServer] is rejected, nothing is
    acquired: the refs, the manager and the log of calls are as before and
    the activation is over.  A mounted view shows the error's message, or
    'Failed to start LSP server' when the rejection is not an [Error], and
    stops loading. *)
Theorem rejected_activation_surfaces_error
    (i : nat) (a : Activation) (reason : option string) (w : World)
    (Hact : activations w !! i = Some a)
    (Hmounted : isMounted a = true) :
  (pc a = AwaitingStart →
     let w' := startRejected i reason w in
     error (hook w') = Some (default "Failed to start LSP server" reason)
     ∧ isLoading (hook w') = false
     ∧ refs w' = refs w ∧ manager w' = manager w ∧ calls w' = calls w
     ∧ pc <$> activations w' !! i = Some Settled)
  ∧ (pc a = AwaitingStatus →
     let w' := statusRejected i reason w in
     error (hook w') = Some (default "Failed to start LSP server" reason)
     ∧ isLoading (hook w') = false
     ∧ refs w' = refs w ∧ manager w' = manager w ∧ calls w' = calls w
     ∧ pc <$> activations w' !! i = Some Settled).
Proof.
  split; intros Hpc w'; unfold w', startRejected, statusRejected;
    rewrite Hact, Hpc; unfold finallyBlock, catchBlock; rewrite Hmounted;
    (split_and!; try reflexivity);
    erewrite lookup_settle by exact Hact; reflexivity.
Qed.

Lemma rejected_activation_surfaces_error_witness :
  let w := @run sampleServers (take 2 deactivatedInFlight) initialWorld in
  error (hook (startRejected 0 (Some "spawn failed") w)) = Some "spawn failed"
  ∧ refs (startRejected 0 None w) = refs w.
Proof.
  intros w.
  assert (Hact : activations w !! 0
                 = Some (mkActivation "typescript" "/repo" "/repo/a.ts" true
                           AwaitingStart))
    by (vm_compute; reflexivity).
  split.
  - exact (proj1 (proj1 (rejected_activation_surfaces_error 0 _
                           (Some "spawn failed") w Hact eq_refl) eq_refl)).
  - pose proof (proj1 (rejected_activation_surfaces_error 0 _ None w Hact eq_refl)
                  eq_refl) as H.
    cbv zeta in H. destruct H as (_ & _ & H & _). exact H.
Defined.

(** ** The view never releases more than it acquired *)

Lemma performCleanup_balance w :
  (length (decrements (calls (performCleanup w))) + held (performCleanup w)
   ≤ length (decrements (calls w)) + held w)%nat.
Proof.
  destruct (performCleanup_refs w) as (_ & _ & Hf).
  rewrite performCleanup_decrements, length_app. unfold held, released.
  rewrite Hf.
  destruct (hasIncrementedRefRef (refs w)), (truthy (serverIdRef (refs w)));
    simpl; lia.
Qed.

Lemma connect_balance a sid w :
  decrements (calls (connect a sid w)) = decrements (calls w)
  ∧ held (connect a sid w) = held w.
Proof.
  unfold connect, held. destruct (isMounted a); [|done]. cbn.
  rewrite decrements_app. cbn. by rewrite app_nil_r.
Qed.

Ltac world_simpl :=
  cbn [calls refs hook manager store activations
       setServerId setIsConnected setIsLoading setError withHook withRefs
       withManager withStore withActivations issue settle setActivation
       setHasIncrementedRefRef setServerIdRef setLanguageRef
       setWorkspaceRootRef setFilePathRef setIsDocumentOpenRef
       hasIncrementedRefRef serverIdRef filePathRef] in *;
  rewrite ?decrements_app in *;
  cbn [decrements List.filter isDecrement app length] in *;
  rewrite ?app_nil_r in *.

Lemma step_balance `{LspServers} (w : World) (e : Event) :
  (length (decrements (calls (step w e))) + held (step w e)
   ≤ length (decrements (calls w)) + held w + acquires w e)%nat.
Proof.
  destruct e as [isEnabled filePath workspaceRoot|i|i status incrementResult
                |i reason|i sid|i reason]; cbn [step].
  - unfold runEffect, acquires.
    destruct (negb isEnabled || negb (truthy filePath)
              || negb (truthy workspaceRoot)
              || negb (truthy (languageOf filePath))).
    + destruct (truthy (serverIdRef (refs w)) || hasIncrementedRefRef (refs w));
        [|lia].
      pose proof (performCleanup_balance w) as Hb.
      unfold held in *. world_simpl. lia.
    + destruct (negb (hasLspSupport _)); [lia|].
      unfold held. world_simpl. lia.
  - unfold effectCleanup, acquires.
    destruct (activations w !! i) as [a|]; [|lia].
    pose proof (performCleanup_balance
                  (setActivation i
                     (mkActivation (act_language a) (act_workspaceRoot a)
                        (act_filePath a) false (pc a)) w)) as Hb.
    unfold held in *. world_simpl. lia.
  - unfold statusFulfilled, acquires.
    destruct (activations w !! i) as [a|]; [|destruct incrementResult; lia].
    destruct (pc a); [|destruct incrementResult; lia..].
    destruct (available status); cbn [negb].
    + destruct (getConnectionByRoot _ _ _) as [existing|].
      * destruct incrementResult; cbv zeta.
        -- destruct (truthy (Some (conn_serverId existing))); cbn [negb].
           ++ unfold finallyBlock.
              destruct (connect_balance a (str (Some (conn_serverId existing)))
                          (setHasIncrementedRefRef true
                             (issue (IncrementRefCount (conn_serverId existing) true) w)))
                as (Hd & Hh).
              unfold held in *.
              destruct (isMounted a); world_simpl; rewrite Hd, Hh;
                destruct (hasIncrementedRefRef (refs w)); lia.
           ++ unfold held. world_simpl.
              destruct (hasIncrementedRefRef (refs w)); lia.
        -- cbn [truthy negb]. unfold held. world_simpl. lia.
      * cbn [truthy negb]. unfold held. world_simpl.
        destruct incrementResult; lia.
    + unfold finallyBlock, held.
      destruct (canDownload status), (isMounted a); world_simpl;
        destruct incrementResult; lia.
  - unfold statusRejected, acquires.
    destruct (activations w !! i) as [a|]; [|lia].
    destruct (pc a); [|lia..].
    unfold finallyBlock, catchBlock, held.
    destruct (isMounted a); world_simpl; lia.
  - unfold startFulfilled, acquires.
    destruct (activations w !! i) as [a|]; [|lia].
    destruct (pc a); [lia| |lia].
    unfold finallyBlock.
    destruct (connect_balance a sid (setHasIncrementedRefRef true w)) as (Hd & Hh).
    unfold held in *.
    destruct (isMounted a); world_simpl; rewrite Hd, Hh;
      destruct (hasIncrementedRefRef (refs w)); lia.
  - unfold startRejected, acquires.
    destruct (activations w !! i) as [a|]; [|lia].
    destruct (pc a); [lia| |lia].
    unfold finallyBlock, catchBlock, held.
    destruct (isMounted a); world_simpl; lia.
Qed.

Lemma run_balance `{LspServers} (events : list Event) (w : World) :
  (length (decrements (calls (run events w))) + held (run events w)
   ≤ length (decrements (calls w)) + held w + acquiredAlong events w)%nat.
Proof.
  unfold run. revert w.
  induction events as [|e events IH]; intros w; cbn [fold_left acquiredAlong].
  - lia.
  - specialize (IH (step w e)). pose proof (step_balance w e). lia.
Qed.

(** However the effect runs, the cleanups and the answers of the server
    registry interleave, a view never issues more [decrementRefCount] calls
    than the number of references it was handed (by a fulfilled
    [startServer] or a successful [incrementRefCount]), less the one its
    flag says it still holds. *)
Theorem never_releases_more_than_acquired `{LspServers} (events : list Event) :
  (count isDecrement (calls (run events initialWorld))
   + held (run events initialWorld)
   ≤ acquiredAlong events initialWorld)%nat.
Proof.
  pose proof (run_balance events initialWorld) as Hb.
  unfold count. fold (decrements (calls (run events initialWorld))).
  cbn in Hb. exact Hb.
Qed.

(** ** A recorded server is a held reference *)

Lemma step_recorded_is_held `{LspServers} (w : World) (e : Event) :
  (truthy (serverIdRef (refs w)) = true → hasIncrementedRefRef (refs w) = true) →
  truthy (serverIdRef (refs (step w e))) = true →
  hasIncrementedRefRef (refs (step w e)) = true.
Proof.
  intros Hinv.
  assert (Hcleanup : ∀ w0,
            truthy (serverIdRef (refs (performCleanup w0))) = true →
            hasIncrementedRefRef (refs (performCleanup w0)) = true).
  { intros w0. destruct (performCleanup_refs w0) as (Hs & _).
    rewrite Hs. discriminate. }
  destruct e as [isEnabled filePath workspaceRoot|i|i status incrementResult
                |i reason|i sid|i reason]; cbn [step].
  - unfold runEffect.
    destruct (negb isEnabled || negb (truthy filePath)
              || negb (truthy workspaceRoot)
              || negb (truthy (languageOf filePath))).
    + destruct (truthy (serverIdRef (refs w)) || hasIncrementedRefRef (refs w));
        [|exact Hinv].
      exact (Hcleanup w).
    + destruct (negb (hasLspSupport _)); exact Hinv.
  - unfold effectCleanup. destruct (activations w !! i) as [a|]; [|exact Hinv].
    apply Hcleanup.
  - unfold statusFulfilled.
    destruct (activations w !! i) as [a|]; [|exact Hinv].
    destruct (pc a); [|exact Hinv..].
    destruct (available status); cbn [negb].
    + destruct (getConnectionByRoot _ _ _) as [existing|].
      * destruct incrementResult; cbv zeta.
        -- destruct (truthy (Some (conn_serverId existing))); cbn [negb].
           ++ unfold finallyBlock, connect. destruct (isMounted a); reflexivity.
           ++ reflexivity.
        -- cbn [truthy negb]. exact Hinv.
      * cbn [truthy negb]. exact Hinv.
    + unfold finallyBlock. destruct (canDownload status), (isMounted a); exact Hinv.
  - unfold statusRejected.
    destruct (activations w !! i) as [a|]; [|exact Hinv].
    destruct (pc a); [|exact Hinv..].
    unfold finallyBlock, catchBlock. destruct (isMounted a); exact Hinv.
  - unfold startFulfilled.
    destruct (activations w !! i) as [a|]; [|exact Hinv].
    destruct (pc a); [exact Hinv| |exact Hinv].
    unfold finallyBlock, connect. destruct (isMounted a); reflexivity.
  - unfold startRejected.
    destruct (activations w !! i) as [a|]; [|exact Hinv].
    destruct (pc a); [exact Hinv| |exact Hinv].
    unfold finallyBlock, catchBlock. destruct (isMounted a); exact Hinv.
Qed.

(** In every state a view reaches, a server id recorded in [serverIdRef]
    comes with the flag set, so that the cleanup releases it: the next
    cleanup issues one [decrementRefCount], for that id. *)
Theorem recorded_server_is_held `{LspServers} (events : list Event) :
  let w := run events initialWorld in
  truthy (serverIdRef (refs w)) = true →
  hasIncrementedRefRef (refs w) = true
  ∧ decrements (calls (performCleanup w))
    = (decrements (calls w)
       ++ [DecrementRefCount (str (serverIdRef (refs w)))])%list.
Proof.
  assert (Hgen : ∀ w0,
            (truthy (serverIdRef (refs w0)) = true →
             hasIncrementedRefRef (refs w0) = true) →
            truthy (serverIdRef (refs (fold_left step events w0))) = true →
            hasIncrementedRefRef (refs (fold_left step events w0)) = true).
  { induction events as [|e events IH]; intros w0 Hw0; [exact Hw0|].
    cbn [fold_left]. apply IH. by apply step_recorded_is_held. }
  intros w Hsid.
  assert (Hflag : hasIncrementedRefRef (refs w) = true).
  { apply (Hgen initialWorld); [discriminate | exact Hsid]. }
  split; [exact Hflag|].
  rewrite performCleanup_decrements. unfold released.
  by rewrite Hflag, Hsid.
Qed.

Lemma recorded_server_is_held_witness :
  let w := @run sampleServers (take 3 activatedThenDeactivated) initialWorld in
  truthy (serverIdRef (refs w)) = true
  ∧ hasIncrementedRefRef (refs w) = true.
Proof.
  intros w.
  assert (Hsid : truthy (serverIdRef (refs w)) = true) by (vm_compute; reflexivity).
  split; [exact Hsid|].
  exact (proj1 (@recorded_server_is_held sampleServers
                  (take 3 activatedThenDeactivated) Hsid)).
Defined.

(** When a mounted view reuses an indexed server ([incrementRefCount]
    answers [true]) and is then deactivated, exactly one
    [decrementRefCount] is issued, for the reused server, and the flag is
    cleared. *)
Theorem reused_server_released_once `{LspServers}
    (i : nat) (a : Activation) (status : ServerStatus)
    (existing : LspConnection) (w : World)
    (Hact : activations w !! i = Some a)
    (Hpc : pc a = AwaitingStatus)
    (Hmounted : isMounted a = true)
    (Havailable : available status = true)
    (Hexisting :
       getConnectionByRoot (act_workspaceRoot a) (act_language a) (manager w)
       = Some existing)
    (Hsid : conn_serverId existing ≠ "") :
  let w1 := statusFulfilled i status true w in
  let w2 := effectCleanup i w1 in
  decrements (calls w2)
  = (decrements (calls w) ++ [DecrementRefCount (conn_serverId existing)])%list
  ∧ hasIncrementedRefRef (refs w2) = false
  ∧ count isStartServer (calls w2) = count isStartServer (calls w).
Proof.
  intros w1 w2. set (sid := conn_serverId existing) in *.
  assert (Hw1 : w1 =
    settle i a (finallyBlock a (connect a sid
      (setHasIncrementedRefRef true (issue (IncrementRefCount sid true) w))))).
  { unfold w1, statusFulfilled. rewrite Hact, Hpc, Havailable. cbn [negb].
    rewrite Hexisting. cbv zeta. fold sid. rewrite (truthy_Some sid Hsid).
    reflexivity. }
  assert (Ha1 : activations w1 !! i
                = Some (mkActivation (act_language a) (act_workspaceRoot a)
                          (act_filePath a) (isMounted a) Settled)).
  { rewrite Hw1. apply lookup_settle with (a0 := a).
    unfold finallyBlock, connect. rewrite Hmounted. exact Hact. }
  assert (Hw2 : w2 = performCleanup (setActivation i
                 (mkActivation (act_language a) (act_workspaceRoot a)
                    (act_filePath a) false Settled) w1)).
  { unfold w2. by rewrite (effectCleanup_unfold i _ w1 Ha1). }
  assert (Hsid1 : serverIdRef (refs w1) = Some sid).
  { rewrite Hw1. unfold finallyBlock, connect. rewrite Hmounted. reflexivity. }
  assert (Hflag1 : hasIncrementedRefRef (refs w1) = true).
  { rewrite Hw1. unfold finallyBlock, connect. rewrite Hmounted. reflexivity. }
  assert (Hcalls1 : calls w1
                    = (calls w ++ [IncrementRefCount sid true;
                                   ManagerRegister (act_filePath a) sid
                                     (act_language a) (act_workspaceRoot a)])%list).
  { rewrite Hw1. unfold finallyBlock, connect. rewrite Hmounted. cbn.
    by rewrite <- app_assoc. }
  destruct (performCleanup_releases_once
              (setActivation i
                 (mkActivation (act_language a) (act_workspaceRoot a)
                    (act_filePath a) false Settled) w1) sid Hflag1 Hsid1 Hsid)
    as (Hd & Hf & _).
  destruct (performCleanup_calls
              (setActivation i
                 (mkActivation (act_language a) (act_workspaceRoot a)
                    (act_filePath a) false Settled) w1)) as (Hc & _).
  split_and!.
  - rewrite Hw2, Hd. cbn [calls setActivation withActivations].
    rewrite Hcalls1, decrements_app. cbn. by rewrite app_nil_r.
  - rewrite Hw2. exact Hf.
  - rewrite Hw2, Hc. cbn [calls setActivation withActivations].
    rewrite Hcalls1. unfold count, closed, unregistered, released.
    rewrite !List.filter_app.
    repeat match goal with
           | |- context [if ?b then _ else _] => destruct b
           end; cbn; rewrite ?app_nil_r; reflexivity.
Qed.

Lemma reused_server_released_once_witness :
  let w1 :=
    @statusFulfilled sampleServers 0 (mkServerStatus true false None) true viewD in
  decrements (calls (effectCleanup 0 w1))
  = (decrements (calls viewD) ++ [DecrementRefCount "srv-5"])%list.
Proof.
  assert (Hex : getConnectionByRoot "/repo" "typescript" (manager viewD)
                = Some (mkLspConnection "srv-5" "typescript" "/repo"))
    by (vm_compute; reflexivity).
  assert (Hsid : conn_serverId (mkLspConnection "srv-5" "typescript" "/repo") ≠ "")
    by discriminate.
  pose proof (@reused_server_released_once sampleServers 0
                (mkActivation "typescript" "/repo" "/repo/d.ts" true AwaitingStatus)
                (mkServerStatus true false None)
                (mkLspConnection "srv-5" "typescript" "/repo") viewD
                eq_refl eq_refl eq_refl eq_refl Hex Hsid) as H.
  cbv zeta in H. exact (proj1 H).
Defined.

(** ** Effect runs that activate nothing *)



(** ** Diagnostics and markers *)




Lemma markerVisible_setDiagnostics `{LspProtocol} uri diagnostics st d :
  markerVisible (setDiagnostics uri diagnostics st) d = markerVisible st d.
Proof. reflexivity. Qed.

(** With the editor, its model and [monaco] present, diagnostics switched
    on, an event for the file on display and no language mismatch, the
    handler issues exactly one call: [setModelMarkers] under the owner
    ['lsp'] with one marker for each diagnostic passing the severity
    switches, in order.  No marker of severity error, warning or hint is
    set while the matching switch is off. *)
Theorem displayed_file_diagnostics_become_markers `{LspProtocol} `{LspServers}
    (env : EditorEnv) (filePath : string) (uri : string)
    (diagnostics : list Diagnostic) (w : World)
    (Henv : hasEditor env = true ∧ hasModel env = true ∧ hasMonaco env = true)
    (Hshow : showDiagnostics (store w) = true)
    (Hpath : filePath ≠ "" ∧ uriToPath uri = filePath)
    (Hlang : languageRef (refs w) = getLanguageIdForPath filePath
             ∨ truthy (languageRef (refs w)) = false) :
  let w' := onDiagnostics env (Some filePath) uri diagnostics w in
  let markers := markersFor (store w) filePath diagnostics in
  calls w' = (calls w ++ [SetModelMarkers "lsp" markers])%list
  ∧ (length markers ≤ length diagnostics)%nat
  ∧ (∀ m, m ∈ markers →
       (marker_severity m = MarkerError → showErrors (store w) = true)
       ∧ (marker_severity m = MarkerWarning → showWarnings (store w) = true)
       ∧ (marker_severity m = MarkerHint → showHints (store w) = true)).
Proof.
  intros w' markers. destruct Henv as (He & Hm & Hmo). destruct Hpath as (Hne & Hp).
  split_and!.
  - unfold w', onDiagnostics. cbv zeta.
    rewrite He, (truthy_Some filePath Hne). cbn [andb].
    cbn [store withStore]. change (showDiagnostics (setDiagnostics _ _ ?st))
      with (showDiagnostics st). rewrite Hshow, Hm, Hmo. cbn [negb].
    rewrite Hp. change (str (Some filePath)) with filePath.
    rewrite String.eqb_refl. cbn [negb refs withStore].
    assert (Hnomismatch :
      truthy (getLanguageIdForPath filePath) && truthy (languageRef (refs w))
      && negb (str (getLanguageIdForPath filePath) =? str (languageRef (refs w)))
      = false).
    { destruct Hlang as [-> | ->].
      - rewrite String.eqb_refl. cbn. by rewrite andb_false_r.
      - by rewrite andb_false_r. }
    rewrite Hnomismatch. reflexivity.
  - unfold markers, markersFor. rewrite length_map. apply List.filter_length_le.
  - intros m Hin. unfold markers, markersFor in Hin.
    apply list_elem_of_fmap in Hin as (d & -> & Hd).
    apply list_elem_of_In in Hd. apply filter_In in Hd as [_ Hvis].
    unfold markerVisible in Hvis. unfold toMarker, mapLspSeverity.
    cbn [marker_severity].
    repeat match goal with
           | |- context [match ?x with _ => _ end] => destruct x
           end;
      split_and!; try discriminate; intros _; exact Hvis.
Qed.

Lemma displayed_file_diagnostics_become_markers_witness :
  (length (@markersFor sampleServers (store connectedView) "/repo/a.ts"
             sampleDiagnostics) ≤ length sampleDiagnostics)%nat.
Proof.
  assert (Hlang : languageRef (refs connectedView)
                  = @getLanguageIdForPath sampleServers "/repo/a.ts"
                  ∨ truthy (languageRef (refs connectedView)) = false)
    by (left; vm_compute; reflexivity).
  assert (Hpath : "/repo/a.ts" ≠ "" ∧ uriToPath "file:///repo/a.ts" = "/repo/a.ts")
    by (split; [discriminate | vm_compute; reflexivity]).
  pose proof (@displayed_file_diagnostics_become_markers sampleProtocol
                sampleServers fullEditor "/repo/a.ts" "file:///repo/a.ts"
                sampleDiagnostics connectedView
                (conj eq_refl (conj eq_refl eq_refl)) eq_refl Hpath Hlang) as H.
  cbv zeta in H. exact (proj1 (proj2 H)).
Defined.

(** ** Document actions *)

(** Without a recorded server the document actions reach no server:
    [openDocument] throws 'LSP server not connected', [updateDocument] and
    [closeDocument] return at once, and the world is as before.
    [openDocument] also throws when the hook has no file path or no
    language. *)
Theorem document_actions_when_not_connected `{LspServers}
    (filePath : option string) (content : string) (rejection : option string)
    (w : World)
    (Hnot : truthy (serverIdRef (refs w)) = false ∨ truthy filePath = false
            ∨ truthy (languageRef (refs w)) = false) :
  openDocument filePath content rejection w = (Threw "LSP server not connected", w)
  ∧ (truthy (serverIdRef (refs w)) = false ∨ truthy (filePathRef (refs w)) = false →
     updateDocument content rejection w = (Returned, w)
     ∧ closeDocument rejection w = (Returned, w)).
Proof.
  split.
  - unfold openDocument, openDocumentBegin.
    destruct Hnot as [-> | [-> | ->]]; cbn [negb orb];
      rewrite ?orb_true_r; reflexivity.
  - unfold updateDocument, closeDocument.
    intros [-> | ->]; cbn [negb orb]; rewrite ?orb_true_r; done.
Qed.

Lemma document_actions_when_not_connected_witness :
  @openDocument sampleServers (Some "/repo/a.ts") "let x = 1" None initialWorld
  = (Threw "LSP server not connected", initialWorld).
Proof.
  exact (proj1 (@document_actions_when_not_connected sampleServers
                  (Some "/repo/a.ts") "let x = 1" None initialWorld
                  (or_introl eq_refl))).
Defined.

(** Closing starts a new cycle: for a connected view whose document is
    open, a fulfilled [closeDocument] followed by [openDocument] sends the
    close and then the open notification again, for the same server and
    file, and leaves the document marked open. *)
Theorem close_then_open_sends_again `{LspServers}
    (sid filePath language content : string) (w : World)
    (Hsid : serverIdRef (refs w) = Some sid) (Hsidne : sid ≠ "")
    (Hpath : filePathRef (refs w) = Some filePath) (Hpathne : filePath ≠ "")
    (Hlang : languageRef (refs w) = Some language) (Hlangne : language ≠ "")
    (Hopen : isDocumentOpenRef (refs w) = true) :
  let w1 := (closeDocument None w).2 in
  let w2 := (openDocument (Some filePath) content None w1).2 in
  isDocumentOpenRef (refs w1) = false
  ∧ calls w2
    = (calls w
       ++ [CloseDocument sid filePath;
           OpenDocument sid filePath
             (orElse (getLspLanguageIdForPath filePath) language) content])%list
  ∧ isDocumentOpenRef (refs w2) = true
  ∧ (openDocument (Some filePath) content None w1).1 = Returned.
Proof.
  intros w1 w2.
  assert (Hw1 : w1 = setIsDocumentOpenRef false (issue (CloseDocument sid filePath) w)).
  { unfold w1, closeDocument.
    rewrite Hsid, Hpath, (truthy_Some _ Hsidne), (truthy_Some _ Hpathne).
    reflexivity. }
  assert (Hopen1 : openDocument (Some filePath) content None w1
                   = (Returned,
                      openDocumentResume (Some filePath)
                        (issue (OpenDocument sid filePath
                                  (orElse (getLspLanguageIdForPath filePath) language)
                                  content) w1))).
  { unfold openDocument, openDocumentBegin. rewrite Hw1.
    cbn [refs setIsDocumentOpenRef issue withRefs serverIdRef languageRef
         isDocumentOpenRef filePathRef].
    rewrite Hsid, Hlang, (truthy_Some _ Hsidne), (truthy_Some _ Hpathne),
      (truthy_Some _ Hlangne). reflexivity. }
  unfold w2. rewrite Hopen1. cbn [fst snd]. rewrite Hw1.
  split_and!; try reflexivity.
  cbn. by rewrite <- app_assoc.
Qed.

Lemma close_then_open_sends_again_witness :
  let w :=
    (@openDocument sampleServers (Some "/repo/a.ts") "let x = 1" None
       connectedView).2 in
  count isOpenDocument
    (calls (@openDocument sampleServers (Some "/repo/a.ts") "let x = 2" None
              (closeDocument None w).2).2) = 2.
Proof.
  intros w.
  assert (H1 : "srv-1" ≠ "") by discriminate.
  assert (H2 : "/repo/a.ts" ≠ "") by discriminate.
  assert (H3 : "typescript" ≠ "") by discriminate.
  pose proof (@close_then_open_sends_again sampleServers "srv-1" "/repo/a.ts"
                "typescript" "let x = 2" w eq_refl H1 eq_refl H2 eq_refl H3
                eq_refl) as H.
  cbv zeta in H. destruct H as (_ & H & _). rewrite H. vm_compute. reflexivity.
Defined.

End UseLspFacts.

(* ====================================================================== *)
(** * Facts about the Qwen Code OAuth store *)
(* ====================================================================== *)

Module QwenCodeOAuthFacts.

Import QwenCodeOAuth.

Lemma validateTokenPath_nonempty readable path :
  validateTokenPath readable path = true → truthy (Some path) = true.
Proof.
  unfold validateTokenPath, truthy. destruct (String.eqb path ""); [discriminate|].
  reflexivity.
Qed.

Lemma dispatch_keeps_invariant s a :
  isLoading s = false ∧ (isConnected s = true → truthy (tokenPath s) = true) →
  isLoading (dispatch s a) = false
  ∧ (isConnected (dispatch s a) = true → truthy (tokenPath (dispatch s a)) = true).
Proof.
  intros [Hl Hc].
  destruct a as [stored readable|path readable saved|saved|read|read tokenValid];
    cbn [dispatch].
  - unfold initialize. destruct (isInitialized s || isLoading s); [done|].
    destruct stored as [value|reason]; cbn [isLoading isConnected tokenPath].
    + split; [done|]. destruct (truthy value) eqn:Hv; [|discriminate].
      destruct value as [p|]; [|discriminate]. by rewrite Hv.
    + done.
  - unfold setTokenPath.
    destruct (validateTokenPath readable path) eqn:Hvalid; cbn [negb].
    + destruct saved; cbn [snd isLoading isConnected tokenPath]; [|done].
      split; [done|]. intros _. by eapply validateTokenPath_nonempty.
    + done.
  - unfold disconnect. destruct saved; cbn; [|done]. split; [done|discriminate].
  - unfold getToken. destruct (negb (truthy (tokenPath s))); [done|].
    destruct read; cbn; [done|]. split; [done|discriminate].
  - unfold testConnection. destruct (truthy (tokenPath s)) eqn:Ht; cbn [negb].
    + destruct read; [destruct tokenValid|];
        cbn [snd isLoading isConnected tokenPath]; split; try done; discriminate.
    + cbn [snd isLoading isConnected tokenPath].
      split; [assumption | intros Hcon; specialize (Hc Hcon); congruence].
Qed.

(** Whatever actions the store has run, one after the other, it is not
    loading between two actions, and it claims to be connected only with a
    non-empty token path. *)
Theorem connected_store_has_token_path (actions : list Action) :
  let s := runActions actions initialState in
  isLoading s = false
  ∧ (isConnected s = true → truthy (tokenPath s) = true).
Proof.
  unfold runActions.
  assert (Hgen : ∀ s0,
            isLoading s0 = false
            ∧ (isConnected s0 = true → truthy (tokenPath s0) = true) →
            isLoading (fold_left dispatch actions s0) = false
            ∧ (isConnected (fold_left dispatch actions s0) = true →
               truthy (tokenPath (fold_left dispatch actions s0)) = true)).
  { induction actions as [|a actions IH]; intros s0 Hs0; [exact Hs0|].
    cbn [fold_left]. apply IH. by apply dispatch_keeps_invariant. }
  apply Hgen. split; [reflexivity|discriminate].
Qed.

(** [initialize] runs once: on a store that is not loading it marks the
    store initialized, whether the settings database answers or fails, and
    any later [initialize] leaves the store as it is; while another action
    is loading it does nothing. *)
Theorem initialize_runs_once
    (stored stored' : Awaited (option string)) (readable readable' : bool)
    (s : QwenCodeOAuthState) :
  (isLoading s = false →
     isInitialized (initialize stored readable s) = true
     ∧ isLoading (initialize stored readable s) = false
     ∧ initialize stored' readable' (initialize stored readable s)
       = initialize stored readable s)
  ∧ (isLoading s = true → initialize stored readable s = s)
  ∧ (isInitialized s = true → initialize stored readable s = s).
Proof.
  split_and!.
  - intros Hl.
    assert (Hinit : isInitialized (initialize stored readable s) = true
                    ∧ isLoading (initialize stored readable s) = false).
    { unfold initialize. rewrite Hl, orb_false_r.
      destruct (isInitialized s) eqn:Hi; [done|]. destruct stored; done. }
    destruct Hinit as [Hinit Hload]. split_and!; [done..|].
    unfold initialize at 1. by rewrite Hinit.
  - intros Hl. unfold initialize. by rewrite Hl, orb_true_r.
  - intros Hi. unfold initialize. by rewrite Hi.
Qed.

(** An action that fails leaves the connection as it was: [setTokenPath]
    with a path that does not validate, or whose save is rejected, and
    [disconnect] whose save is rejected, throw, record an error message,
    stop loading and keep [tokenPath] and [isConnected].  An empty path
    never validates. *)
Theorem failed_action_keeps_connection
    (path : string) (readable : bool) (reason : option string)
    (s : QwenCodeOAuthState) :
  let unchanged (s' : QwenCodeOAuthState) :=
    tokenPath s' = tokenPath s ∧ isConnected s' = isConnected s
    ∧ isInitialized s' = isInitialized s ∧ isLoading s' = false in
  (validateTokenPath readable path = false →
     ∀ saved,
       (setTokenPath path readable saved s).1 = Threw (Some invalidPathMessage)
       ∧ error (setTokenPath path readable saved s).2 = Some invalidPathMessage
       ∧ unchanged (setTokenPath path readable saved s).2)
  ∧ validateTokenPath readable "" = false
  ∧ (validateTokenPath readable path = true →
       (setTokenPath path readable (Rejected reason) s).1 = Threw reason
       ∧ error (setTokenPath path readable (Rejected reason) s).2
         = Some (messageOf reason "Failed to set token path")
       ∧ unchanged (setTokenPath path readable (Rejected reason) s).2)
  ∧ ((disconnect (Rejected reason) s).1 = Threw reason
     ∧ error (disconnect (Rejected reason) s).2
       = Some (messageOf reason "Failed to disconnect")
     ∧ unchanged (disconnect (Rejected reason) s).2).
Proof.
  intros unchanged. unfold unchanged. split; [|split; [|split]].
  - intros Hv saved. unfold setTokenPath. rewrite Hv. cbn. done.
  - reflexivity.
  - intros Hv. unfold setTokenPath. rewrite Hv. cbn. done.
  - cbn. done.
Qed.

(** ** The endpoint *)

Lemma prefix_app p x y :
  String.prefix p x = true → String.prefix p (x ++ y) = true.
Proof.
  revert x. induction p as [|c p IH]; intros x.
  - intros _. by destruct (x ++ y).
  - destruct x as [|d x]; [discriminate|].
    change (String d x ++ y) with (String d (x ++ y)). cbn [String.prefix].
    destruct (Ascii.ascii_dec c d); [apply IH|done].
Qed.

Lemma endsWith_app suffix s : endsWith suffix (s ++ suffix) = true.
Proof.
  induction s as [|c s IH].
  - change ("" ++ suffix) with suffix.
    destruct suffix; cbn [endsWith]; by rewrite String.eqb_refl.
  - change (String c s ++ suffix) with (String c (s ++ suffix)).
    cbn [endsWith]. rewrite IH. apply orb_true_r.
Qed.

(** Whatever [resource_url] the credentials carry, the endpoint starts
    with [http] and ends with [/v1]; computing the endpoint of an endpoint
    changes nothing; without a [resource_url] it is the DashScope default. *)
Theorem endpointOf_normalised (resource_url : option string) :
  String.prefix "http" (endpointOf resource_url) = true
  ∧ endsWith "/v1" (endpointOf resource_url) = true
  ∧ endpointOf (Some (endpointOf resource_url)) = endpointOf resource_url
  ∧ endpointOf None = "https://dashscope.aliyuncs.com/compatible-mode/v1"
  ∧ endpointOf (Some "") = endpointOf None.
Proof.
  assert (Hgen : ∀ u, String.prefix "http" (endpointOf u) = true
                      ∧ endsWith "/v1" (endpointOf u) = true).
  { intros u. unfold endpointOf. cbv zeta.
    set (base := if truthy u then default "" u else _).
    set (normalized := if String.prefix "http" base then base else _).
    assert (Hn : String.prefix "http" normalized = true).
    { unfold normalized. destruct (String.prefix "http" base) eqn:Hb; [done|].
      reflexivity. }
    destruct (endsWith "/v1" normalized) eqn:He.
    - done.
    - split; [by apply prefix_app | apply endsWith_app]. }
  destruct (Hgen resource_url) as (Hp & He).
  split_and!; [exact Hp | exact He | | reflexivity | reflexivity].
  generalize dependent (endpointOf resource_url). intros e Hp He.
  unfold endpointOf. cbv zeta.
  assert (Ht : truthy (Some e) = true).
  { destruct e; [discriminate|reflexivity]. }
  rewrite Ht. cbn [default from_option id]. unfold id. rewrite Hp, He. reflexivity.
Qed.

End QwenCodeOAuthFacts.
